(** * ecs_cluster_facts: listing, describing and filtering ECS clusters

    A shallow embedding of [cloud/amazon/ecs_cluster_facts.py] (class
    [EcsClusterManager] and the defaults set up by [main]) and the
    properties of its three methods.

    - [Py]: the pieces of the Python runtime the module relies on
      (exceptions, dictionary subscripts, [in] and [==] on strings).
    - [Re]: [re.match] as the module uses it, an interface, and one small
      engine of that interface for concrete runs.
    - [Ecs]: the boto3 client the manager talks to, as an object with a
      state of its own, and the log of the requests sent to it.
    - [EcsClusterManager]: the methods, statement by statement.
    - [Spec]: the vocabulary the properties are stated in.
    - [Stub]: small providers and records, for concrete runs. *)

From Stdlib Require Import Ascii String.
From Equations Require Import Equations.
From stdpp Require Import gmap strings list fin_maps.

Open Scope string_scope.
Open Scope list_scope.

(** ** Python runtime

    A string is the sequence of its characters, one [ascii] per character. *)

Module Py.

(** Exceptions that cross a method boundary of the module.  [PyException fmt
    arg] is [Exception(fmt % arg)] with [arg] a list of strings: the text is
    kept as the format and its argument rather than rendered with [repr]. *)
Inductive PyErr : Type :=
| AttributeError (msg : string)
| KeyError (key : string)
| TypeError (msg : string)
| ReError (pattern : string)
| PyException (fmt : string) (arg : list string)
| ClientError (msg : string).

Definition result (A : Type) : Type := (PyErr + A)%type.

Definition Ok {A} (a : A) : result A := inr a.
Definition Raise {A} (e : PyErr) : result A := inl e.

Definition bind {A B} (m : result A) (k : A -> result B) : result B :=
  match m with
  | inl e => inl e
  | inr a => k a
  end.

(** Field values of a cluster record: strings and integer counts. *)
Inductive pyval : Type :=
| VStr (s : string)
| VInt (n : Z).

(** [d[key]] on a dictionary. *)
Definition getitem (d : gmap string pyval) (key : string) : result pyval :=
  match d !! key with
  | Some v => Ok v
  | None => Raise (KeyError key)
  end.

(** [s.startswith(p)]. *)
Fixpoint startswith (p s : string) : bool :=
  match p, s with
  | EmptyString, _ => true
  | String a p', String b s' => if Ascii.eqb a b then startswith p' s' else false
  | String _ _, EmptyString => false
  end.

(** [needle in hay] on two strings: is there a position of [hay] at which
    [needle] starts. *)
Fixpoint str_contains (needle hay : string) : bool :=
  startswith needle hay ||
  match hay with
  | EmptyString => false
  | String _ hay' => str_contains needle hay'
  end.

(** [needle in v]: an integer is not iterable. *)
Definition contains (needle : string) (v : pyval) : result bool :=
  match v with
  | VStr s => Ok (str_contains needle s)
  | VInt _ => Raise (TypeError "argument of type 'int' is not iterable")
  end.

(** [v == s] for a string [s]: values of different types are unequal. *)
Definition eq_str (v : pyval) (s : string) : bool :=
  match v with
  | VStr t => String.eqb t s
  | VInt _ => false
  end.

End Py.

Export Py.

Notation "'let*' x ':=' m 'in' k" := (Py.bind m (fun x => k))
  (at level 10, x name, m at level 100, k at level 200).

(** ** Regular expressions

    [re.match(pattern, string)] compiles [pattern] and asks whether zero or
    more characters at the beginning of [string] match it.  The module only
    uses the truth value of the returned match object.  [Engine] is that
    interface: the properties of [filter_clusters] hold for every engine,
    and what the one on regular expressions needs of [re.match] is
    [re_match_contract] below.

    [fragment] is one small engine, used where a concrete one is needed.  It
    reads the patterns built from literal characters, [.], [|], groups and
    one of [*], [+], [?] after an item that cannot match the empty string,
    and gives them Python's meaning; every other pattern it refuses, also
    the ones Python accepts (anchors, classes, counted or lazy repetition,
    escapes of letters and digits, extension groups).  Outside the patterns
    it reads it says nothing of Python's [re].

    A string is the sequence of its characters, one [ascii] each, as a
    Python 2 [str] is; [.] stands for one character. *)

Module Re.

Record Engine : Type := {
  pattern_obj : Type;
  compile : string -> result pattern_obj;
  matches : pattern_obj -> string -> bool
}.

Inductive regex : Type :=
| Void
| Eps
| Chr (a : ascii)
| Dot
| Cat (r1 r2 : regex)
| Alt (r1 r2 : regex)
| Star (r : regex).

(** The words of a regular expression.  [Dot] is any character but a
    newline (no DOTALL flag is passed). *)
Inductive lang : regex -> string -> Prop :=
| lang_eps : lang Eps ""
| lang_chr a : lang (Chr a) (String a "")
| lang_dot a : a <> "010"%char -> lang Dot (String a "")
| lang_cat r1 r2 u v : lang r1 u -> lang r2 v -> lang (Cat r1 r2) (u +:+ v)
| lang_alt_l r1 r2 u : lang r1 u -> lang (Alt r1 r2) u
| lang_alt_r r1 r2 u : lang r2 u -> lang (Alt r1 r2) u
| lang_star_nil r : lang (Star r) ""
| lang_star_cons r u v : lang r u -> lang (Star r) v -> lang (Star r) (u +:+ v).

Fixpoint nullable (r : regex) : bool :=
  match r with
  | Void | Chr _ | Dot => false
  | Eps | Star _ => true
  | Cat r1 r2 => nullable r1 && nullable r2
  | Alt r1 r2 => nullable r1 || nullable r2
  end.

Fixpoint deriv (a : ascii) (r : regex) : regex :=
  match r with
  | Void | Eps => Void
  | Chr b => if Ascii.eqb a b then Eps else Void
  | Dot => if Ascii.eqb a "010" then Void else Eps
  | Cat r1 r2 =>
      if nullable r1 then Alt (Cat (deriv a r1) r2) (deriv a r2)
      else Cat (deriv a r1) r2
  | Alt r1 r2 => Alt (deriv a r1) (deriv a r2)
  | Star r1 => Cat (deriv a r1) (Star r1)
  end.

(** Is all of [s] a word of [r]. *)
Fixpoint accepts (r : regex) (s : string) : bool :=
  match s with
  | EmptyString => nullable r
  | String a s' => accepts (deriv a r) s'
  end.

(** Does some prefix of [s] belong to [r]. *)
Fixpoint match_prefix (r : regex) (s : string) : bool :=
  nullable r ||
  match s with
  | EmptyString => false
  | String a s' => match_prefix (deriv a r) s'
  end.

(** *** Reading a pattern *)

(** One nesting level of the pattern being read: the alternatives already
    closed by [|], the items of the current alternative (both latest
    first), and whether the latest item may still take a quantifier. *)
Record frame : Type := {
  alts : list regex;
  items : list regex;
  open_rep : bool
}.

Definition empty_frame : frame := {| alts := []; items := []; open_rep := false |}.

Definition close_items (rs : list regex) : regex :=
  fold_left (fun acc r => Cat r acc) rs Eps.

Definition close_frame (f : frame) : regex :=
  fold_left (fun acc r => Alt r acc) (alts f) (close_items (items f)).

Definition push_item (r : regex) (f : frame) : frame :=
  {| alts := alts f; items := r :: items f; open_rep := true |}.

Definition quantify (q : regex -> regex) (f : frame) : option frame :=
  match items f with
  | r :: rs =>
      if open_rep f && negb (nullable r)
      then Some {| alts := alts f; items := q r :: rs; open_rep := false |}
      else None
  | [] => None
  end.

Definition is_alnum (a : ascii) : bool :=
  let n := nat_of_ascii a in
  (Nat.leb 48 n && Nat.leb n 57) || (Nat.leb 65 n && Nat.leb n 90)
  || (Nat.leb 97 n && Nat.leb n 122).

Definition is_ascii (a : ascii) : bool := Nat.ltb (nat_of_ascii a) 128.

(** [esc] is set right after a backslash.  [None]: the pattern is malformed
    or uses syntax this engine does not read. *)
Fixpoint parse (s : string) (esc : bool) (cur : frame) (stack : list frame)
  : option regex :=
  match s with
  | EmptyString =>
      match esc, stack with
      | false, [] => Some (close_frame cur)
      | _, _ => None
      end
  | String a s' =>
      if esc then
        if is_ascii a && negb (is_alnum a)
        then parse s' false (push_item (Chr a) cur) stack
        else None
      else if Ascii.eqb a "\" then parse s' true cur stack
      else if Ascii.eqb a "(" then parse s' false empty_frame (cur :: stack)
      else if Ascii.eqb a ")" then
        match stack with
        | up :: stack' => parse s' false (push_item (close_frame cur) up) stack'
        | [] => None
        end
      else if Ascii.eqb a "|" then
        parse s' false
          {| alts := close_items (items cur) :: alts cur; items := [];
             open_rep := false |} stack
      else if Ascii.eqb a "*" then
        match quantify Star cur with
        | Some cur' => parse s' false cur' stack
        | None => None
        end
      else if Ascii.eqb a "+" then
        match quantify (fun r => Cat r (Star r)) cur with
        | Some cur' => parse s' false cur' stack
        | None => None
        end
      else if Ascii.eqb a "?" then
        match quantify (fun r => Alt r Eps) cur with
        | Some cur' => parse s' false cur' stack
        | None => None
        end
      else if Ascii.eqb a "." then parse s' false (push_item Dot cur) stack
      else if Ascii.eqb a "[" || Ascii.eqb a "]" || Ascii.eqb a "{"
              || Ascii.eqb a "}" || Ascii.eqb a "^" || Ascii.eqb a "$"
      then None
      else parse s' false (push_item (Chr a) cur) stack
  end.

Definition fragment_compile (pattern : string) : result regex :=
  match parse pattern false empty_frame [] with
  | Some r => Ok r
  | None => Raise (ReError pattern)
  end.

Definition fragment : Engine :=
  {| pattern_obj := regex; compile := fragment_compile; matches := match_prefix |}.

End Re.

(** ** The ECS client *)

Module Ecs.

(** A cluster record as [describe_clusters] returns it: a dictionary from
    field names to values. *)
Abbreviation Cluster := (gmap string pyval).

(** The response of [list_clusters].  [nextToken] is [None] when the
    response has no such key, and [Some v] when it has one with value [v],
    which is Python's [None] or a token. *)
Record ListResponse : Type := {
  clusterArns : list string;
  nextToken : option (option string)
}.

Record DescribeResponse : Type := {
  clusters : list Cluster
}.

(** The boto3 client: each operation answers from the provider's state and
    may change it, or raises. *)
Record Client (St : Type) : Type := {
  list_clusters : option string -> St -> result ListResponse * St;
  describe_clusters : list string -> St -> result DescribeResponse * St
}.
Arguments list_clusters {St}.
Arguments describe_clusters {St}.

Inductive Request : Type :=
| ListClusters (token : option string)
| DescribeClusters (arns : list string).

(** The provider's state and the requests sent so far, oldest first. *)
Record World (St : Type) : Type := {
  state : St;
  sent : list Request
}.
Arguments state {St}.
Arguments sent {St}.
Arguments Build_World {St}.

Definition start {St} (s : St) : World St := {| state := s; sent := [] |}.

End Ecs.

Abbreviation Cluster := Ecs.Cluster.

(** ** The module *)

Module EcsClusterManager.

Section Client.

Context {St : Type} (ecs : Ecs.Client St).

Abbreviation World := (Ecs.World St).

(** [self.ecs.list_clusters()]: the method passes no argument. *)
Definition self_ecs_list_clusters (w : World) : result Ecs.ListResponse * World :=
  let (r, s) := Ecs.list_clusters ecs None (Ecs.state w) in
  (r, {| Ecs.state := s; Ecs.sent := Ecs.sent w ++ [Ecs.ListClusters None] |}).

(** [self.ecs_list_clusters()] in the loop of [list_clusters]: the class
    defines [list_clusters], [describe_clusters] and [filter_clusters], and
    [__init__] sets [module] and [ecs]; no attribute has this name, so the
    attribute reference raises and nothing is sent. *)
Definition self_ecs_list_clusters_attr (w : World) : result Ecs.ListResponse * World :=
  (Raise (AttributeError
            "EcsClusterManager instance has no attribute 'ecs_list_clusters'"), w).

(** [self.ecs.describe_clusters(clusters=arns)]. *)
Definition self_ecs_describe_clusters (arns : list string) (w : World)
  : result Ecs.DescribeResponse * World :=
  let (r, s) := Ecs.describe_clusters ecs arns (Ecs.state w) in
  (r, {| Ecs.state := s; Ecs.sent := Ecs.sent w ++ [Ecs.DescribeClusters arns] |}).

(** The [while response_next_token is not None] loop of [list_clusters].
    [None] is returned when [fuel] iterations were not enough. *)
Fixpoint list_clusters_loop (fuel : nat) (response_next_token : option string)
    (cluster_arns : list string) (w : World)
  : option (result (list string) * World) :=
  match response_next_token with
  | None => Some (Ok cluster_arns, w)
  | Some _ =>
      match fuel with
      | O => None
      | S fuel' =>
          match self_ecs_list_clusters_attr w with
          | (inl e, w') => Some (inl e, w')
          | (inr response, w') =>
              let cluster_arns := cluster_arns ++ Ecs.clusterArns response in
              match Ecs.nextToken response with
              | Some response_next_token =>
                  list_clusters_loop fuel' response_next_token cluster_arns w'
              | None => list_clusters_loop fuel' None cluster_arns w'
              end
          end
      end
  end.

Definition list_clusters (fuel : nat) (w : World)
  : option (result (list string) * World) :=
  let cluster_arns := [] in
  match self_ecs_list_clusters w with
  | (inl e, w') => Some (inl e, w')
  | (inr response, w') =>
      let cluster_arns := cluster_arns ++ Ecs.clusterArns response in
      match Ecs.nextToken response with
      | Some response_next_token =>
          list_clusters_loop fuel response_next_token cluster_arns w'
      | None => Some (Ok cluster_arns, w')
      end
  end.

Definition cluster_max_size : nat := 50.

Definition describe_error_fmt : string := "Unknown problem describing cluster %s.".

(** The [while len(cluster_arns) > 0] loop of [describe_clusters]; each turn
    rebinds [cluster_arns] to the slice after the first [cluster_max_size]
    identifiers. *)
Equations? describe_clusters_loop (cluster_arns : list string)
    (cluster_details : list Cluster) (w : World)
  : result (list Cluster) * World by wf (length cluster_arns) lt :=
  describe_clusters_loop [] cluster_details w := (Ok cluster_details, w);
  describe_clusters_loop (a :: arns) cluster_details w
    with self_ecs_describe_clusters (take cluster_max_size (a :: arns)) w => {
    | (inl e, w') := (inl e, w');
    | (inr response, w') with Ecs.clusters response => {
      | [] := (Raise (PyException describe_error_fmt (a :: arns)), w');
      | c :: cs :=
          describe_clusters_loop (drop cluster_max_size (a :: arns))
            (cluster_details ++ c :: cs) w' } }.
Proof. simpl. rewrite length_drop. lia. Qed.

Definition describe_clusters (cluster_arns : list string) (w : World)
  : result (list Cluster) * World :=
  describe_clusters_loop cluster_arns [] w.

End Client.

Section Filter.

Context (re : Re.Engine).

(** [re.match(pattern, v)] as a truth value: the pattern is compiled first,
    then the subject must be a string. *)
Definition re_match (pattern : string) (v : pyval) : result bool :=
  let* p := Re.compile re pattern in
  match v with
  | VStr s => Ok (Re.matches re p s)
  | VInt _ => Raise (TypeError "expected string or buffer")
  end.

(** The two lists [filter_clusters] works with: its argument and the list
    it builds. *)
Record Locals : Type := {
  clusters : list Cluster;
  filtered_clusters : list Cluster
}.

Definition append (cluster : Cluster) (l : Locals) : Locals :=
  {| clusters := clusters l;
     filtered_clusters := filtered_clusters l ++ [cluster] |}.

(** The body of the [for cluster in clusters] loop. *)
Definition filter_body (filter_param filter_value filter_mode : string)
    (cluster : Cluster) (l : Locals) : result Locals :=
  if String.eqb filter_mode "substring" then
    let* v := getitem cluster filter_param in
    let* b := contains filter_value v in
    if b then Ok (append cluster l) else Ok l
  else if String.eqb filter_mode "exact" then
    let* v := getitem cluster filter_param in
    if eq_str v filter_value then Ok (append cluster l) else Ok l
  else if String.eqb filter_mode "regex" then
    let* v := getitem cluster filter_param in
    let* b := re_match filter_value v in
    if b then Ok (append cluster l) else Ok l
  else Ok l.

Fixpoint filter_loop (filter_param filter_value filter_mode : string)
    (todo : list Cluster) (l : Locals) : result Locals :=
  match todo with
  | [] => Ok l
  | cluster :: todo' =>
      let* l' := filter_body filter_param filter_value filter_mode cluster l in
      filter_loop filter_param filter_value filter_mode todo' l'
  end.

(** The method, with its local state when it returns. *)
Definition filter_clusters_run (clusters : list Cluster)
    (filter_param filter_value filter_mode : string) : result Locals :=
  filter_loop filter_param filter_value filter_mode clusters
    {| clusters := clusters; filtered_clusters := [] |}.

Definition filter_clusters (clusters : list Cluster)
    (filter_param filter_value filter_mode : string) : result (list Cluster) :=
  let* l := filter_clusters_run clusters filter_param filter_value filter_mode in
  Ok (filtered_clusters l).

End Filter.

(** The parameters [main] declares, with their defaults. *)
Record Params : Type := {
  name : string;
  search_mode : string
}.

Definition default_params : Params := {| name := ""; search_mode := "substring" |}.

End EcsClusterManager.

(** ** Vocabulary of the properties *)

Module Spec.

(** Consecutive batches of at most [n] items. *)
Fixpoint batches_upto {A} (fuel n : nat) (l : list A) : list (list A) :=
  match fuel, l with
  | S fuel', _ :: _ => take n l :: batches_upto fuel' n (drop n l)
  | _, _ => []
  end.

Definition batches {A} (n : nat) (l : list A) : list (list A) :=
  batches_upto (length l) n l.

(** What the client does when it is sent the describe requests [reqs] one
    after the other, up to the first one it does not describe: every request
    is answered with at least one record ([Described], with the answers in
    order); request number [k] (from 0) raises [e]; request number [k] is
    answered with no record. *)
Inductive Outcome : Type :=
| Described (records : list (list Cluster))
| Refused (k : nat) (e : PyErr)
| Undescribed (k : nat).

(** The outcome of the requests after a first one answered with [first]. *)
Definition after (first : list Cluster) (o : Outcome) : Outcome :=
  match o with
  | Described records => Described (first :: records)
  | Refused k e => Refused (S k) e
  | Undescribed k => Undescribed (S k)
  end.

Fixpoint serve {St} (ecs : Ecs.Client St) (reqs : list (list string)) (s : St)
  : Outcome * St :=
  match reqs with
  | [] => (Described [], s)
  | req :: reqs' =>
      match Ecs.describe_clusters ecs req s with
      | (inl e, s') => (Refused 0 e, s')
      | (inr response, s') =>
          match Ecs.clusters response with
          | [] => (Undescribed 0, s')
          | _ :: _ =>
              let (o, s'') := serve ecs reqs' s' in
              (after (Ecs.clusters response) o, s'')
          end
      end
  end.

(** What [describe_clusters] comes to, having gathered [acc] and sent [log],
    when serving the batches of [ids] has the outcome [os]: the answers
    appended in order; the client's own exception; or the exception of the
    method, formatted with the identifiers from batch [k] onwards.  In the
    last two cases the requests stop with batch [k]. *)
Definition describe_outcome {St} (ids : list string) (acc : list Cluster)
    (log : list Ecs.Request) (os : Outcome * St)
  : result (list Cluster) * Ecs.World St :=
  let bs := batches EcsClusterManager.cluster_max_size ids in
  match os with
  | (Described records, s) =>
      (Ok (acc ++ concat records),
       {| Ecs.state := s; Ecs.sent := log ++ map Ecs.DescribeClusters bs |})
  | (Refused k e, s) =>
      (Raise e,
       {| Ecs.state := s;
          Ecs.sent := log ++ map Ecs.DescribeClusters (take (S k) bs) |})
  | (Undescribed k, s) =>
      (Raise (PyException EcsClusterManager.describe_error_fmt
                (drop (k * EcsClusterManager.cluster_max_size) ids)),
       {| Ecs.state := s;
          Ecs.sent := log ++ map Ecs.DescribeClusters (take (S k) bs) |})
  end.

(** Pagination as the specification words it: the token of a response is
    passed to the next list call, and the pages are accumulated until a
    response has none. *)
Fixpoint listClusters_from {St} (ecs : Ecs.Client St) (fuel : nat)
    (token : option string) (acc : list string) (w : Ecs.World St)
  : option (result (list string) * Ecs.World St) :=
  match fuel with
  | O => None
  | S fuel' =>
      let (r, s) := Ecs.list_clusters ecs token (Ecs.state w) in
      let w' := {| Ecs.state := s;
                   Ecs.sent := Ecs.sent w ++ [Ecs.ListClusters token] |} in
      match r with
      | inl e => Some (inl e, w')
      | inr response =>
          match Ecs.nextToken response with
          | Some (Some t) =>
              listClusters_from ecs fuel' (Some t) (acc ++ Ecs.clusterArns response) w'
          | _ => Some (Ok (acc ++ Ecs.clusterArns response), w')
          end
      end
  end.

Definition listClusters_spec {St} (ecs : Ecs.Client St) (fuel : nat)
    (w : Ecs.World St) : option (result (list string) * Ecs.World St) :=
  listClusters_from ecs fuel None [] w.

(** The record has the field, and its value is a string. *)
Definition has_str (field : string) (c : Cluster) : Prop :=
  exists s, c !! field = Some (VStr s).

(** A test on the string value of a field. *)
Definition field_test (test : string -> bool) (field : string) (c : Cluster) : bool :=
  match c !! field with
  | Some (VStr s) => test s
  | _ => false
  end.

(** The decision the loop body of [filter_clusters] takes on one record, and
    the same as a plain truth value ([false] where the body raises). *)
Definition verdict (re : Re.Engine) (filter_param filter_value filter_mode : string)
    (cluster : Cluster) : result bool :=
  if String.eqb filter_mode "substring" then
    let* v := getitem cluster filter_param in
    contains filter_value v
  else if String.eqb filter_mode "exact" then
    let* v := getitem cluster filter_param in
    Ok (eq_str v filter_value)
  else if String.eqb filter_mode "regex" then
    let* v := getitem cluster filter_param in
    EcsClusterManager.re_match re filter_value v
  else Ok false.

Definition kept (re : Re.Engine) (filter_param filter_value filter_mode : string)
    (cluster : Cluster) : bool :=
  match verdict re filter_param filter_value filter_mode cluster with
  | inr b => b
  | inl _ => false
  end.

(** [p] occurs somewhere in [s]. *)
Definition substring_of (p s : string) : Prop :=
  exists pre post, s = pre +:+ p +:+ post.

(** Some prefix of [s] is a word of [r]. *)
Definition matches_at_start (r : Re.regex) (s : string) : Prop :=
  exists u v, s = u +:+ v /\ Re.lang r u.

End Spec.

(** ** Clients used as concrete inputs *)

Module Stub.

(** A provider that answers the list calls from a fixed sequence of pages
    and describes the clusters it knows. *)
Record Provider : Type := {
  pages : list Ecs.ListResponse;
  known : string -> bool
}.

Definition record_of (arn : string) : Cluster :=
  {[ "clusterArn" := VStr arn; "clusterName" := VStr arn ]}.

Definition list_clusters (token : option string) (p : Provider)
  : result Ecs.ListResponse * Provider :=
  match pages p with
  | page :: rest => (Ok page, {| pages := rest; known := known p |})
  | [] => (Raise (ClientError "no more pages"), p)
  end.

Definition describe_clusters (arns : list string) (p : Provider)
  : result Ecs.DescribeResponse * Provider :=
  (Ok {| Ecs.clusters := map record_of (List.filter (known p) arns) |}, p).

Definition client : Ecs.Client Provider :=
  {| Ecs.list_clusters := list_clusters; Ecs.describe_clusters := describe_clusters |}.

Definition arn_of (i : nat) : string := String (ascii_of_nat i) "".

Definition arns (n : nat) : list string := map arn_of (seq 0 n).

Definition named (n : string) : Cluster := {[ "clusterName" := VStr n ]}.

Definition three : list Cluster := [named "prod-a"; named "prod-b"; named "stage-a"].

Definition nothing : string -> bool := fun _ => false.

Definition everything : string -> bool := fun _ => true.

(** Two pages of one identifier each; the first carries a token. *)
Definition first_page : Ecs.ListResponse :=
  {| Ecs.clusterArns := ["arn:a"]; Ecs.nextToken := Some (Some "t1") |}.

Definition second_page : Ecs.ListResponse :=
  {| Ecs.clusterArns := ["arn:b"]; Ecs.nextToken := None |}.

Definition two_pages : Provider :=
  {| pages := [first_page; second_page]; known := nothing |}.

(** A provider that knows of no cluster, and one that knows them all. *)
Definition knows_none : Provider := {| pages := []; known := nothing |}.

Definition knows_all : Provider := {| pages := []; known := everything |}.

End Stub.

(** ** The entry point *)

Module Main.

(** How [boto3_conn] ends: with a client, with boto's [NoAuthHandlerFound]
    (the one exception [__init__] handles), or with another exception. *)
Inductive Connection : Type :=
| Connected
| NoAuthHandlerFound (msg : string)
| ConnectionRaised (e : PyErr).

(** What [main] finds around it: whether [boto] and [boto3] could be
    imported, the region [get_aws_connection_info] returns, and how
    [boto3_conn] ends. *)
Record Env : Type := {
  HAS_BOTO : bool;
  HAS_BOTO3 : bool;
  region : option string;
  boto3_conn : Connection
}.

(** How the program ends: [module.exit_json(changed=..., clusters=...)],
    [module.fail_json(msg=...)], which both leave the program, or an
    exception nobody handles.  The message of [fail_json] is [msg] followed,
    when there is a [cause], by [str(cause)]. *)
Inductive Exit : Type :=
| exit_json (changed : bool) (clusters : list Cluster)
| fail_json (msg : string) (cause : option PyErr)
| traceback (e : PyErr).

(** [not region]: [None] and the empty string are false. *)
Definition not_ (region : option string) : bool :=
  match region with
  | None => true
  | Some EmptyString => true
  | Some (String _ _) => false
  end.

(** [EcsClusterManager.__init__]: the way it leaves the program, or [tt] when
    the manager is built. *)
Definition init (env : Env) : Exit + unit :=
  if not_ (region env) then
    inl (fail_json "Region must be specified as a parameter, in EC2_REGION or AWS_REGION environment variables or in boto configuration file" None)
  else
    match boto3_conn env with
    | Connected => inr tt
    | NoAuthHandlerFound msg =>
        inl (fail_json ("Can't authorize connection - " +:+ msg) None)
    | ConnectionRaised e => inl (traceback e)
    end.

Definition exception_prefix (params : EcsClusterManager.Params) : string :=
  "Exception describing cluster '" +:+ EcsClusterManager.name params +:+ "': ".

Section Main.

Context {St : Type} (ecs : Ecs.Client St) (re : Re.Engine).

(** [main], from the checks on the imports on; [params] are the parameters
    of the module as [AnsibleModule] hands them over.  [None]: [fuel] was
    not enough for the loop of [list_clusters]. *)
Definition main (env : Env) (params : EcsClusterManager.Params) (fuel : nat) (s : St)
  : option (Exit * Ecs.World St) :=
  let changed := false in
  if negb (HAS_BOTO env) then Some (fail_json "boto is required." None, Ecs.start s)
  else if negb (HAS_BOTO3 env) then
    Some (fail_json "boto3 is required." None, Ecs.start s)
  else
    match init env with
    | inl exit => Some (exit, Ecs.start s)
    | inr _ =>
        match EcsClusterManager.list_clusters ecs fuel (Ecs.start s) with
        | None => None
        | Some (inl e, w) => Some (fail_json (exception_prefix params) (Some e), w)
        | Some (inr cluster_arns, w) =>
            match EcsClusterManager.describe_clusters ecs cluster_arns w with
            | (inl e, w') => Some (fail_json (exception_prefix params) (Some e), w')
            | (inr cluster_details, w') =>
                match EcsClusterManager.filter_clusters re cluster_details
                        "clusterName" (EcsClusterManager.name params)
                        (EcsClusterManager.search_mode params) with
                | inl e => Some (fail_json (exception_prefix params) (Some e), w')
                | inr cluster_filtered =>
                    Some (exit_json changed cluster_filtered, w')
                end
            end
        end
    end.

End Main.

(** An environment in which the manager gets its client. *)
Definition ready (env : Env) : Prop :=
  HAS_BOTO env = true /\ HAS_BOTO3 env = true
  /\ not_ (region env) = false /\ boto3_conn env = Connected.

End Main.

(** The text of the [AttributeError] raised in the loop of [list_clusters]. *)
Definition ecs_list_clusters_text : string :=
  "EcsClusterManager instance has no attribute 'ecs_list_clusters'".

(** ** What the module needs of [re.match]

    Python defines which stretches of a string a pattern matches:
    [span pattern s b e] stands for "[pattern] matches [s] from position [b]
    up to position [e]".  [re.match] looks for a match that starts at
    position 0 and may end anywhere; a full match would end at the length of
    [s], and a search could start anywhere. *)
Definition starts_with_match (span : string -> string -> nat -> nat -> Prop)
    (pattern s : string) : Prop :=
  exists e, e <= String.length s /\ span pattern s 0 e.

(** The engine is [re.match] for the meaning [span] of patterns: a pattern
    that compiles gives a true match object on exactly the strings that
    start with a match. *)
Definition re_match_contract (re : Re.Engine)
    (span : string -> string -> nat -> nat -> Prop) : Prop :=
  forall pattern p s,
    Re.compile re pattern = Ok p ->
    (Re.matches re p s = true <-> starts_with_match span pattern s).

(** The stretches the patterns of [Re.fragment] match: the words of the
    expression read from the pattern. *)
Definition fragment_span (pattern s : string) (b e : nat) : Prop :=
  exists r,
    Re.parse pattern false Re.empty_frame [] = Some r
    /\ Re.lang r (String.substring b (e - b) s).

(** The modes [filter_clusters] has a branch for. *)
Definition known_mode (mode : string) : Prop :=
  mode = "substring" \/ mode = "exact" \/ mode = "regex".

(** ** More concrete inputs *)

Module Stub2.

(** A client that describes every identifier while its state, a budget of
    requests, is positive, and raises once it is used up. *)
Definition budget_describe (arns : list string) (budget : nat)
  : result Ecs.DescribeResponse * nat :=
  match budget with
  | O => (Raise (ClientError "ThrottlingException"), O)
  | S budget' => (Ok {| Ecs.clusters := map Stub.record_of arns |}, budget')
  end.

Definition budget_list (token : option string) (budget : nat)
  : result Ecs.ListResponse * nat :=
  (Raise (ClientError "ThrottlingException"), budget).

Definition budget_client : Ecs.Client nat :=
  {| Ecs.list_clusters := budget_list; Ecs.describe_clusters := budget_describe |}.

(** One page of three identifiers, all known. *)
Definition one_page : Stub.Provider :=
  {| Stub.pages := [ {| Ecs.clusterArns := ["prod-a"; "prod-b"; "stage-a"];
                        Ecs.nextToken := None |} ];
     Stub.known := Stub.everything |}.

Definition served : Stub.Provider :=
  {| Stub.pages := []; Stub.known := Stub.everything |}.

Definition env : Main.Env :=
  {| Main.HAS_BOTO := true; Main.HAS_BOTO3 := true;
     Main.region := Some "eu-west-1"; Main.boto3_conn := Main.Connected |}.

(** A record without a name. *)
Definition unnamed : Cluster := {[ "clusterArn" := VStr "arn:x" ]}.

(** A record whose name is a string and whose task count is an integer. *)
Definition counted (n : string) (tasks : Z) : Cluster :=
  {[ "clusterName" := VStr n; "runningTasksCount" := VInt tasks ]}.

End Stub2.

(** * Properties *)

(** ** Strings *)

Section StringFacts.

Lemma append_nil_l (s : string) : "" +:+ s = s.
Proof. reflexivity. Qed.

Lemma append_cons (a : ascii) (s t : string) : String a s +:+ t = String a (s +:+ t).
Proof. reflexivity. Qed.

Lemma append_nil_r (s : string) : s +:+ "" = s.
Proof. induction s as [|a s IH]; [reflexivity|]. rewrite append_cons, IH. reflexivity. Qed.

Lemma append_assoc (s t u : string) : (s +:+ t) +:+ u = s +:+ t +:+ u.
Proof.
  induction s as [|a s IH]; [reflexivity|].
  rewrite !append_cons, IH. reflexivity.
Qed.

Lemma append_eq_nil (s t : string) : s +:+ t = "" -> s = "" /\ t = "".
Proof. destruct s; [rewrite append_nil_l; auto | rewrite append_cons; discriminate]. Qed.

Lemma startswith_spec (p s : string) :
  startswith p s = true <-> exists post, s = p +:+ post.
Proof.
  revert s. induction p as [|a p IH]; intros s; simpl.
  - split; [exists s; reflexivity | reflexivity].
  - destruct s as [|b s].
    + split; [discriminate | intros [post H]; rewrite append_cons in H; discriminate].
    + destruct (Ascii.eqb_spec a b) as [->|Hne].
      * rewrite IH. split; intros [post H]; exists post.
        -- rewrite append_cons, H. reflexivity.
        -- rewrite append_cons in H. congruence.
      * split; [discriminate|].
        intros [post H]. rewrite append_cons in H. congruence.
Qed.

Lemma str_contains_spec (p s : string) :
  str_contains p s = true <-> Spec.substring_of p s.
Proof.
  unfold Spec.substring_of. induction s as [|b s IH].
  - cbn [str_contains]. rewrite orb_false_r, startswith_spec. split.
    + intros [post H]. exists "", post. exact H.
    + intros (pre & post & H). symmetry in H.
      apply append_eq_nil in H as [-> H]. exists post. symmetry. exact H.
  - cbn [str_contains]. rewrite orb_true_iff, startswith_spec, IH. split.
    + intros [[post H]|(pre & post & H)].
      * exists "", post. exact H.
      * exists (String b pre), post. rewrite append_cons, H. reflexivity.
    + intros (pre & post & H). destruct pre as [|a pre].
      * left. exists post. exact H.
      * right. rewrite append_cons in H. exists pre, post. congruence.
Qed.

Lemma str_contains_empty (s : string) : str_contains "" s = true.
Proof. destruct s; reflexivity. Qed.

End StringFacts.

(** ** Regular expressions: the matcher decides the prefix language *)

Section RegexFacts.

Import Re.

Lemma lang_nil_nullable (r : regex) (s : string) :
  lang r s -> s = "" -> nullable r = true.
Proof.
  induction 1 as [ | | | r1 r2 u v _ IH1 _ IH2 | r1 r2 u _ IH | r1 r2 u _ IH
                 | | r u v _ _ _ _ ]; intros E; try discriminate; simpl; auto.
  - apply append_eq_nil in E as [-> ->]. rewrite IH1, IH2; reflexivity.
  - rewrite IH; auto.
  - rewrite IH; auto using orb_true_r.
Qed.

Lemma nullable_spec (r : regex) : nullable r = true <-> lang r "".
Proof.
  split; [|intros H; eapply lang_nil_nullable; eauto].
  induction r as [ | | a | | r1 IH1 r2 IH2 | r1 IH1 r2 IH2 | r IH ]; simpl;
    try discriminate; intros H.
  - constructor.
  - apply andb_true_iff in H as [H1 H2].
    change "" with ("" +:+ ""). constructor; auto.
  - apply orb_true_iff in H as [H|H]; [apply lang_alt_l | apply lang_alt_r]; auto.
  - constructor.
Qed.

Lemma lang_star_cons_inv (r : regex) (a : ascii) (s : string) :
  lang (Star r) (String a s) ->
  exists u v, s = u +:+ v /\ lang r (String a u) /\ lang (Star r) v.
Proof.
  intros H. remember (Star r) as R eqn:ER. remember (String a s) as w eqn:Ew.
  revert s Ew.
  induction H as [ | | | | | | | r' u v Hu _ Hv IHv ]; intros s Ew;
    try discriminate ER; try discriminate Ew.
  injection ER as ->. destruct u as [|b u].
  - rewrite append_nil_l in Ew. apply IHv; auto.
  - rewrite append_cons in Ew. injection Ew as -> <-. eauto.
Qed.

Lemma deriv_spec (a : ascii) (r : regex) (s : string) :
  lang (deriv a r) s <-> lang r (String a s).
Proof.
  revert s.
  induction r as [ | | b | | r1 IH1 r2 IH2 | r1 IH1 r2 IH2 | r IH ]; intros s; simpl.
  - split; inversion 1.
  - split; inversion 1.
  - destruct (Ascii.eqb_spec a b) as [->|Hne]; split; inversion 1; subst;
      try constructor; congruence.
  - destruct (Ascii.eqb_spec a "010"%char) as [->|Hne]; split; inversion 1; subst;
      try constructor; congruence.
  - assert (Hcat : lang (Cat (deriv a r1) r2) s ->
                   lang (Cat r1 r2) (String a s)).
    { inversion 1; subst. rewrite <- append_cons. constructor; [apply IH1|]; auto. }
    assert (Hinv : lang (Cat r1 r2) (String a s) ->
                   lang (Cat (deriv a r1) r2) s
                   \/ (nullable r1 = true /\ lang (deriv a r2) s)).
    { inversion 1 as [ | | | ? ? u v Hu Hv | | | | ]; subst.
      rename select (_ +:+ _ = _) into E. destruct u as [|b u].
      - rewrite append_nil_l in E. subst v. right.
        split; [apply nullable_spec | apply IH2]; auto.
      - rewrite append_cons in E. injection E as -> <-. left.
        constructor; [apply IH1|]; auto. }
    destruct (nullable r1) eqn:N.
    + split.
      * inversion 1; subst; auto.
        rewrite <- (append_nil_l (String a s)).
        constructor; [apply nullable_spec | apply IH2]; auto.
      * intros H. destruct (Hinv H) as [H'|[_ H']];
          [apply lang_alt_l | apply lang_alt_r]; auto.
    + split; auto.
      intros H. destruct (Hinv H) as [H'|[N' _]]; [auto | discriminate].
  - split; inversion 1; subst;
      solve [ apply lang_alt_l; apply IH1; auto | apply lang_alt_r; apply IH2; auto ].
  - split.
    + inversion 1; subst. rewrite <- append_cons. constructor; [apply IH|]; auto.
    + intros H. apply lang_star_cons_inv in H as (u & v & -> & Hu & Hv).
      constructor; [apply IH|]; auto.
Qed.

Lemma match_prefix_spec (r : regex) (s : string) :
  match_prefix r s = true <-> Spec.matches_at_start r s.
Proof.
  unfold Spec.matches_at_start. revert r.
  induction s as [|a s IH]; intros r; cbn [match_prefix].
  - rewrite orb_false_r, nullable_spec. split.
    + intros H. exists "", "". auto.
    + intros (u & v & E & H). symmetry in E.
      apply append_eq_nil in E as [-> _]. exact H.
  - rewrite orb_true_iff, nullable_spec, IH. split.
    + intros [H|(u & v & -> & H)].
      * exists "", (String a s). auto.
      * exists (String a u), v. split; [reflexivity | apply deriv_spec; auto].
    + intros (u & v & E & H). destruct u as [|b u].
      * left. exact H.
      * rewrite append_cons in E. injection E as -> ->. right.
        exists u, v. split; [reflexivity | apply deriv_spec; auto].
Qed.

Lemma accepts_spec (r : regex) (s : string) : accepts r s = true <-> lang r s.
Proof.
  revert r. induction s as [|a s IH]; intros r; simpl.
  - apply nullable_spec.
  - rewrite IH. apply deriv_spec.
Qed.

Lemma substring_prefix (u v : string) :
  String.substring 0 (String.length u) (u +:+ v) = u.
Proof.
  induction u as [|a u IH].
  - rewrite append_nil_l. destruct v; reflexivity.
  - rewrite append_cons. simpl. rewrite IH. reflexivity.
Qed.

Lemma substring_is_prefix (s : string) (e : nat) :
  exists v, s = String.substring 0 e s +:+ v.
Proof.
  revert s. induction e as [|e IH]; intros s.
  - exists s. destruct s; reflexivity.
  - destruct s as [|a s]; simpl.
    + exists "". reflexivity.
    + destruct (IH s) as [v Hv]. exists v. rewrite append_cons, <- Hv. reflexivity.
Qed.

Lemma length_append (u v : string) :
  String.length (u +:+ v) = String.length u + String.length v.
Proof.
  induction u as [|a u IH]; [reflexivity|]. rewrite append_cons. simpl. lia.
Qed.

(** The small engine is [re.match] for the patterns it reads. *)
Lemma fragment_contract : re_match_contract fragment fragment_span.
Proof.
  intros pattern p s Hp. unfold starts_with_match, fragment_span.
  simpl in *. unfold fragment_compile in Hp.
  destruct (parse pattern false empty_frame []) as [r|] eqn:E; [|discriminate].
  injection Hp as <-. rewrite match_prefix_spec. unfold Spec.matches_at_start. split.
  - intros (u & v & -> & H). exists (String.length u). split.
    + rewrite length_append. lia.
    + exists r. split; [reflexivity|]. rewrite Nat.sub_0_r, substring_prefix. exact H.
  - intros (e & _ & r' & [= <-] & H). rewrite Nat.sub_0_r in H.
    destruct (substring_is_prefix s e) as [v Hv]. eauto.
Qed.

End RegexFacts.

(** ** filter_clusters *)

Section FilterFacts.

Import EcsClusterManager.

Context (re : Re.Engine).

Implicit Types (c cluster : Cluster) (todo out : list Cluster) (l : Locals).
Implicit Types (p v m : string).

Lemma filter_sublist (f : Cluster -> bool) todo : List.filter f todo `sublist_of` todo.
Proof.
  induction todo as [|c todo IH]; simpl; [constructor|].
  destruct (f c); constructor; exact IH.
Qed.

Lemma filter_filter (f : Cluster -> bool) todo :
  List.filter f (List.filter f todo) = List.filter f todo.
Proof.
  induction todo as [|c todo IH]; simpl; [reflexivity|].
  destruct (f c) eqn:E; simpl; [rewrite E, IH|]; auto.
Qed.

Lemma filter_body_verdict p v m c l :
  filter_body re p v m c l =
  let* b := Spec.verdict re p v m c in Ok (if b then append c l else l).
Proof.
  unfold filter_body, Spec.verdict.
  destruct (String.eqb m "substring").
  { destruct (getitem c p) as [e|x]; simpl; [reflexivity|].
    destruct (contains v x) as [e|[]]; reflexivity. }
  destruct (String.eqb m "exact").
  { destruct (getitem c p) as [e|x]; simpl; [reflexivity|].
    destruct (eq_str x v); reflexivity. }
  destruct (String.eqb m "regex"); [|reflexivity].
  destruct (getitem c p) as [e|x]; simpl; [reflexivity|].
  destruct (re_match re v x) as [e|[]]; reflexivity.
Qed.

(** The loop succeeds exactly when the body decides every record, and then
    appends the records decided positively, leaving [clusters] alone. *)
Lemma filter_loop_spec p v m todo l l' :
  filter_loop re p v m todo l = Ok l' <->
  Forall (fun c => exists b, Spec.verdict re p v m c = Ok b) todo /\
  l' = {| clusters := clusters l;
          filtered_clusters :=
            filtered_clusters l ++ List.filter (Spec.kept re p v m) todo |}.
Proof.
  revert l. induction todo as [|c todo IH]; intros l; simpl.
  - rewrite app_nil_r. destruct l as [cl fl]; simpl. split.
    + intros [= <-]. auto.
    + intros [_ ->]. reflexivity.
  - rewrite filter_body_verdict. unfold Spec.kept at 1.
    destruct (Spec.verdict re p v m c) as [e|b] eqn:E; simpl.
    + split; [discriminate|]. intros [H _]. inversion H as [|? ? [b Hb]]. unfold Ok in Hb. congruence.
    + rewrite IH. destruct b; simpl.
      * rewrite <- app_assoc. simpl. split; intros [H ->]; split; eauto.
        inversion H; auto.
      * split; intros [H ->]; split; eauto. inversion H; auto.
Qed.

Lemma filter_clusters_spec clusters p v m out :
  filter_clusters re clusters p v m = Ok out <->
  Forall (fun c => exists b, Spec.verdict re p v m c = Ok b) clusters /\
  out = List.filter (Spec.kept re p v m) clusters.
Proof.
  unfold filter_clusters, filter_clusters_run.
  destruct (filter_loop re p v m clusters _) as [e|l'] eqn:E; simpl.
  - split; [discriminate|]. intros [H _].
    assert (E' : filter_loop re p v m clusters
                   {| clusters := clusters; filtered_clusters := [] |} =
                 Ok {| clusters := clusters;
                       filtered_clusters := [] ++ List.filter (Spec.kept re p v m) clusters |})
      by (apply filter_loop_spec; auto).
    rewrite E in E'. discriminate.
  - apply filter_loop_spec in E as [H ->]. simpl. split.
    + intros [= <-]. auto.
    + intros [_ ->]. reflexivity.
Qed.

(** When [test] is what the body decides on every record, the method leaves
    its argument as it was and returns the records passing [test]. *)
Lemma filter_clusters_run_test p v m (test : Cluster -> bool) clusters :
  Forall (fun c => Spec.verdict re p v m c = Ok (test c)) clusters ->
  filter_clusters_run re clusters p v m =
  Ok {| EcsClusterManager.clusters := clusters;
        filtered_clusters := List.filter test clusters |}.
Proof.
  intros H. unfold filter_clusters_run. apply filter_loop_spec. split.
  - eapply Forall_impl; [exact H|]. simpl. eauto.
  - simpl. f_equal. apply List.filter_ext_in. intros c Hc.
    rewrite Forall_forall in H. unfold Spec.kept.
    rewrite (H c); [reflexivity|]. apply list_elem_of_In. exact Hc.
Qed.

Lemma filter_clusters_test p v m (test : Cluster -> bool) clusters :
  Forall (fun c => Spec.verdict re p v m c = Ok (test c)) clusters ->
  filter_clusters re clusters p v m = Ok (List.filter test clusters).
Proof.
  intros H. unfold filter_clusters.
  rewrite (filter_clusters_run_test p v m test clusters H). reflexivity.
Qed.

End FilterFacts.

Section FilterClaims.

Import EcsClusterManager.

Implicit Types (clusters out : list Cluster) (field pattern mode : string).

Lemma verdict_substring re field pattern c :
  Spec.has_str field c ->
  Spec.verdict re field pattern "substring" c =
  Ok (Spec.field_test (str_contains pattern) field c).
Proof.
  intros [s Hs]. unfold Spec.verdict, Spec.field_test, getitem. simpl.
  rewrite Hs. reflexivity.
Qed.

Lemma verdict_exact re field pattern c :
  Spec.has_str field c ->
  Spec.verdict re field pattern "exact" c =
  Ok (Spec.field_test (fun s => String.eqb s pattern) field c).
Proof.
  intros [s Hs]. unfold Spec.verdict, Spec.field_test, getitem. simpl.
  rewrite Hs. reflexivity.
Qed.

Lemma verdict_regex re field pattern p c :
  Re.compile re pattern = Ok p ->
  Spec.has_str field c ->
  Spec.verdict re field pattern "regex" c =
  Ok (Spec.field_test (Re.matches re p) field c).
Proof.
  intros Hp [s Hs]. unfold Spec.verdict, Spec.field_test, getitem, re_match. simpl.
  rewrite Hs. simpl. rewrite Hp. reflexivity.
Qed.

Lemma verdict_other re field pattern mode c :
  mode <> "substring" -> mode <> "exact" -> mode <> "regex" ->
  Spec.verdict re field pattern mode c = Ok false.
Proof.
  intros H1 H2 H3. unfold Spec.verdict.
  apply String.eqb_neq in H1, H2, H3. rewrite H1, H2, H3. reflexivity.
Qed.


(** C4. For records carrying the field as a string, mode [substring] keeps
    exactly the records whose field value contains the pattern and mode
    [exact] exactly those whose field value equals it; the result is in
    input order and the argument list is as it was. *)
Theorem filter_clusters_substring_exact re clusters field pattern :
  Forall (Spec.has_str field) clusters ->
  (filter_clusters_run re clusters field pattern "substring" =
     Ok {| EcsClusterManager.clusters := clusters;
           filtered_clusters :=
             List.filter (Spec.field_test (str_contains pattern) field) clusters |}
   /\ filter_clusters re clusters field pattern "substring" =
     Ok (List.filter (Spec.field_test (str_contains pattern) field) clusters))
  /\ (filter_clusters_run re clusters field pattern "exact" =
     Ok {| EcsClusterManager.clusters := clusters;
           filtered_clusters :=
             List.filter (Spec.field_test (fun s => String.eqb s pattern) field) clusters |}
   /\ filter_clusters re clusters field pattern "exact" =
     Ok (List.filter (Spec.field_test (fun s => String.eqb s pattern) field) clusters))
  /\ (forall s, str_contains pattern s = true <-> Spec.substring_of pattern s)
  /\ (forall s, String.eqb s pattern = true <-> s = pattern).
Proof.
  intros H.
  assert (Hs : Forall (fun c => Spec.verdict re field pattern "substring" c =
                 Ok (Spec.field_test (str_contains pattern) field c)) clusters)
    by (eapply Forall_impl; [exact H|]; intros c Hc; apply verdict_substring; auto).
  assert (He : Forall (fun c => Spec.verdict re field pattern "exact" c =
                 Ok (Spec.field_test (fun s => String.eqb s pattern) field c)) clusters)
    by (eapply Forall_impl; [exact H|]; intros c Hc; apply verdict_exact; auto).
  repeat split.
  - apply filter_clusters_run_test; auto.
  - apply filter_clusters_test; auto.
  - apply filter_clusters_run_test; auto.
  - apply filter_clusters_test; auto.
  - apply str_contains_spec.
  - apply str_contains_spec.
  - apply String.eqb_eq.
  - apply String.eqb_eq.
Qed.

(** C7. With a mode other than [substring], [exact] and [regex] no branch
    of the loop body applies: nothing is raised, whatever the records hold,
    and the returned list is empty. *)
Theorem filter_clusters_unrecognized_mode re clusters field pattern mode :
  mode <> "substring" -> mode <> "exact" -> mode <> "regex" ->
  filter_clusters re clusters field pattern mode = Ok [].
Proof.
  intros H1 H2 H3.
  rewrite (filter_clusters_test re field pattern mode (fun _ => false)).
  - f_equal. induction clusters; simpl; auto.
  - apply Forall_forall. intros c _. apply verdict_other; auto.
Qed.

(** C8. Whatever the criterion, a list returned by [filter_clusters] is a
    subsequence of its argument: every returned record occurs in the
    argument, and a record of the argument that is not returned is one the
    criterion decided against. *)
Theorem filter_clusters_sublist re clusters field pattern mode out :
  filter_clusters re clusters field pattern mode = Ok out ->
  out `sublist_of` clusters
  /\ (forall c, c ∈ out -> c ∈ clusters)
  /\ (forall c, c ∈ clusters -> c ∉ out ->
        Spec.verdict re field pattern mode c = Ok false).
Proof.
  intros H. apply filter_clusters_spec in H as [Hall ->].
  split; [apply filter_sublist|]. split.
  - intros c Hc. apply list_elem_of_In, List.filter_In in Hc as [Hc _].
    apply list_elem_of_In. exact Hc.
  - intros c Hc Hn. rewrite Forall_forall in Hall.
    destruct (Hall c Hc) as [b Hb]. destruct b; [|exact Hb].
    exfalso. apply Hn. apply list_elem_of_In, List.filter_In. split.
    + apply list_elem_of_In. exact Hc.
    + unfold Spec.kept. rewrite Hb. reflexivity.
Qed.

(** C9. With the defaults of [main], the empty name and mode [substring],
    [filter_clusters] returns its argument: every record whose field is a
    string is kept, the empty string being a substring of every string. *)
Theorem filter_clusters_default_identity re clusters field :
  Forall (Spec.has_str field) clusters ->
  filter_clusters re clusters field (name default_params)
    (search_mode default_params) = Ok clusters.
Proof.
  intros H. simpl.
  rewrite (filter_clusters_test re field "" "substring" (fun _ => true)).
  - f_equal. clear H. induction clusters; simpl; f_equal; auto.
  - eapply Forall_impl; [exact H|]. intros c Hc.
    rewrite verdict_substring by exact Hc. destruct Hc as [s Hs].
    unfold Spec.field_test. rewrite Hs, str_contains_empty. reflexivity.
Qed.

(** C10. Filtering is idempotent: applied with the same criterion to a list
    it returned, [filter_clusters] returns that list again. *)
Theorem filter_clusters_idempotent re clusters field pattern mode out :
  filter_clusters re clusters field pattern mode = Ok out ->
  filter_clusters re out field pattern mode = Ok out.
Proof.
  intros H. apply filter_clusters_spec in H as [Hall ->].
  apply filter_clusters_spec. split; [|symmetry; apply filter_filter].
  rewrite Forall_forall in *. intros c Hc. apply Hall.
  apply list_elem_of_In, List.filter_In in Hc as [Hc _].
  apply list_elem_of_In. exact Hc.
Qed.

End FilterClaims.

(** ** Batches *)

Section BatchFacts.

Context {A : Type}.

Implicit Types (l : list A) (n k fuel : nat).

Lemma batches_upto_enough n fuel1 fuel2 l :
  0 < n -> length l <= fuel1 -> length l <= fuel2 ->
  Spec.batches_upto fuel1 n l = Spec.batches_upto fuel2 n l.
Proof.
  intros Hn. revert fuel2 l.
  induction fuel1 as [|fuel1 IH]; intros fuel2 l H1 H2.
  - destruct l; [|simpl in H1; lia]. destruct fuel2; reflexivity.
  - destruct l as [|x l]; [destruct fuel2; reflexivity|].
    destruct fuel2 as [|fuel2]; [simpl in H2; lia|].
    simpl. f_equal. apply IH; rewrite length_drop; simpl in *; lia.
Qed.

Lemma batches_nil n : Spec.batches n (@nil A) = [].
Proof. reflexivity. Qed.

Lemma batches_cons n l :
  0 < n -> l <> [] ->
  Spec.batches n l = take n l :: Spec.batches n (drop n l).
Proof.
  intros Hn Hl. unfold Spec.batches. destruct l as [|x l]; [congruence|].
  simpl length. cbn [Spec.batches_upto]. f_equal.
  apply batches_upto_enough; auto; rewrite length_drop; simpl; lia.
Qed.

(** Induction along the batches of a list. *)
Lemma batch_ind n (P : list A -> Prop) :
  0 < n -> P [] -> (forall l, l <> [] -> P (drop n l) -> P l) -> forall l, P l.
Proof.
  intros Hn Hnil Hstep l.
  remember (length l) as len eqn:E. revert l E.
  induction len as [len IH] using lt_wf_ind. intros l E.
  destruct l as [|x l]; [exact Hnil|].
  apply Hstep; [discriminate|].
  apply (IH (length (drop n (x :: l)))); [|reflexivity].
  rewrite length_drop. subst len. simpl. lia.
Qed.

Lemma concat_batches n l : 0 < n -> concat (Spec.batches n l) = l.
Proof.
  intros Hn. revert l. apply (batch_ind n); [exact Hn | reflexivity |].
  intros l Hl IH. rewrite batches_cons by auto. simpl. rewrite IH. apply take_drop.
Qed.

Lemma batches_sizes n l :
  0 < n -> Forall (fun b => 0 < length b <= n) (Spec.batches n l).
Proof.
  intros Hn. revert l. apply (batch_ind n); [exact Hn | constructor |].
  intros l Hl IH. rewrite batches_cons by auto. constructor; [|exact IH].
  rewrite length_take. destruct l; [congruence|]. simpl. lia.
Qed.

Lemma batches_lookup n l k :
  0 < n -> k * n < length l ->
  Spec.batches n l !! k = Some (take n (drop (k * n) l)).
Proof.
  intros Hn. revert l k. apply (batch_ind n (fun l => forall k, k * n < length l ->
    Spec.batches n l !! k = Some (take n (drop (k * n) l)))); [exact Hn | |].
  - intros k Hk. simpl in Hk. lia.
  - intros l Hl IH k Hk. rewrite batches_cons by auto.
    destruct k as [|k]; [reflexivity|].
    simpl lookup. rewrite IH by (rewrite length_drop; simpl in Hk; lia).
    rewrite drop_drop. do 2 f_equal; simpl; lia.
Qed.

Lemma batches_length_120 l :
  length l = 120 -> map length (Spec.batches 50 l) = [50; 50; 20].
Proof.
  intros H.
  rewrite batches_cons by (try lia; intros ->; discriminate).
  rewrite (batches_cons 50 (drop 50 l))
    by (try lia; intros E; apply (f_equal length) in E;
        rewrite length_drop in E; simpl in E; lia).
  rewrite (batches_cons 50 (drop 50 (drop 50 l)))
    by (try lia; intros E; apply (f_equal length) in E;
        rewrite !length_drop in E; simpl in E; lia).
  assert (E : drop 50 (drop 50 (drop 50 l)) = [])
    by (apply length_zero_iff_nil; rewrite !length_drop; lia).
  rewrite E, batches_nil. simpl map.
  rewrite !length_take, !length_drop. repeat f_equal; lia.
Qed.

End BatchFacts.

(** ** describe_clusters *)

Section DescribeFacts.

Import EcsClusterManager.

Context {St : Type} (ecs : Ecs.Client St).

Implicit Types (ids : list string) (acc : list Cluster) (s : St).
Implicit Types (log : list Ecs.Request) (w : Ecs.World St).

Lemma cluster_max_size_pos : 0 < cluster_max_size.
Proof. unfold cluster_max_size. lia. Qed.

(** One turn of the loop. *)
Lemma describe_clusters_loop_cons ids acc w :
  ids <> [] ->
  describe_clusters_loop ecs ids acc w =
  match self_ecs_describe_clusters ecs (take cluster_max_size ids) w with
  | (inl e, w') => (inl e, w')
  | (inr response, w') =>
      match Ecs.clusters response with
      | [] => (Raise (PyException describe_error_fmt ids), w')
      | _ :: _ =>
          describe_clusters_loop ecs (drop cluster_max_size ids)
            (acc ++ Ecs.clusters response) w'
      end
  end.
Proof.
  intros H. destruct ids as [|a arns]; [congruence|].
  simp describe_clusters_loop.
  destruct (self_ecs_describe_clusters ecs (take cluster_max_size (a :: arns)) w)
    as [[e|response] w']; simpl; [reflexivity|].
  destruct (Ecs.clusters response); reflexivity.
Qed.

(** The loop sends the batches of its argument in order and stops at the
    first one the client does not describe. *)
Lemma describe_clusters_loop_serve ids acc s log :
  describe_clusters_loop ecs ids acc {| Ecs.state := s; Ecs.sent := log |} =
  Spec.describe_outcome ids acc log
    (Spec.serve ecs (Spec.batches cluster_max_size ids) s).
Proof.
  revert ids acc s log.
  apply (batch_ind cluster_max_size (fun ids => forall acc s log,
    describe_clusters_loop ecs ids acc {| Ecs.state := s; Ecs.sent := log |} =
    Spec.describe_outcome ids acc log
      (Spec.serve ecs (Spec.batches cluster_max_size ids) s)));
    [apply cluster_max_size_pos | |].
  - intros acc s log. simp describe_clusters_loop.
    unfold Spec.describe_outcome. simpl. rewrite !app_nil_r. reflexivity.
  - intros ids Hids IH acc s log.
    rewrite describe_clusters_loop_cons by exact Hids.
    unfold Spec.describe_outcome.
    rewrite (batches_cons cluster_max_size ids cluster_max_size_pos Hids).
    unfold self_ecs_describe_clusters. cbn [Spec.serve Ecs.state Ecs.sent].
    destruct (Ecs.describe_clusters ecs (take cluster_max_size ids) s)
      as [[e|response] s1]; [reflexivity|].
    destruct (Ecs.clusters response) as [|c cs] eqn:E; [reflexivity|].
    rewrite IH. unfold Spec.describe_outcome.
    destruct (Spec.serve ecs (Spec.batches cluster_max_size (drop cluster_max_size ids)) s1)
      as [[records|k e|k] s2]; cbn [Spec.after].
    + rewrite <- !app_assoc. reflexivity.
    + rewrite <- !app_assoc. reflexivity.
    + rewrite <- !app_assoc, drop_drop. reflexivity.
Qed.

Lemma describe_clusters_serve ids s :
  describe_clusters ecs ids (Ecs.start s) =
  Spec.describe_outcome ids [] []
    (Spec.serve ecs (Spec.batches cluster_max_size ids) s).
Proof. apply describe_clusters_loop_serve. Qed.

(** Answers of as many records as identifiers requested make as many
    records as identifiers. *)
Lemma concat_same_length {A B} (xs : list (list A)) (ys : list (list B)) :
  Forall2 (fun x y => length y = length x) xs ys ->
  length (concat ys) = length (concat xs).
Proof.
  induction 1 as [|x y xs ys E _ IH]; [reflexivity|].
  simpl. rewrite !length_app. lia.
Qed.

Lemma serve_undescribed_bound (reqs : list (list string)) s k s' :
  Spec.serve ecs reqs s = (Spec.Undescribed k, s') -> k < length reqs.
Proof.
  revert s k s'. induction reqs as [|req reqs IH]; intros s k s'; simpl.
  - intros [=].
  - destruct (Ecs.describe_clusters ecs req s) as [[e|response] s1]; [intros [=]|].
    destruct (Ecs.clusters response); [intros [= <- _]; lia|].
    destruct (Spec.serve ecs reqs s1) as [[records|j e|j] s2] eqn:E;
      simpl; intros [= <- _]. apply IH in E. lia.
Qed.

End DescribeFacts.

Section DescribeClaims.

Import EcsClusterManager.

Context {St : Type} (ecs : Ecs.Client St).

Implicit Types (ids : list string) (s : St) (w : Ecs.World St).

Lemma batches_length_bound {A} (n : nat) (l : list A) (k : nat) :
  0 < n -> k < length (Spec.batches n l) -> k * n < length l.
Proof.
  intros Hn. revert l k.
  apply (batch_ind n (fun l => forall k,
    k < length (Spec.batches n l) -> k * n < length l)); [exact Hn | |].
  - intros k Hk. simpl in Hk. lia.
  - intros l Hl IH k. rewrite batches_cons by auto. simpl length.
    destruct k as [|k]; intros Hk.
    + destruct l; [congruence|]. simpl. lia.
    + assert (H : k * n < length (drop n l)) by (apply IH; lia).
      rewrite length_drop in H. simpl. lia.
Qed.

Lemma serve_described_length (reqs : list (list string)) s records s' :
  Spec.serve ecs reqs s = (Spec.Described records, s') ->
  length records = length reqs /\ Forall (fun rs => rs <> []) records.
Proof.
  revert s records s'. induction reqs as [|req reqs IH]; intros s records s'; simpl.
  - intros [= <- _]. split; [reflexivity | constructor].
  - destruct (Ecs.describe_clusters ecs req s) as [[e|response] s1]; [intros [=]|].
    destruct (Ecs.clusters response) as [|c cs]; [intros [=]|].
    destruct (Spec.serve ecs reqs s1) as [[records'|j e|j] s2] eqn:E;
      simpl; intros [= <- _].
    apply IH in E as [E1 E2]. split; [simpl; lia|].
    constructor; [discriminate | exact E2].
Qed.

(** C2. When the client describes every batch it is sent,
    [describe_clusters] splits its argument into consecutive batches of at
    most 50 identifiers, sends one describe request per batch, in order, and
    returns the answers appended in that order; answers of one record per
    identifier make as many records as identifiers, and 120 identifiers go
    out as batches of 50, 50 and 20. *)
Theorem describe_clusters_batches ids s records s' :
  Spec.serve ecs (Spec.batches cluster_max_size ids) s = (Spec.Described records, s') ->
  describe_clusters ecs ids (Ecs.start s) =
    (Ok (concat records),
     {| Ecs.state := s';
        Ecs.sent := map Ecs.DescribeClusters (Spec.batches cluster_max_size ids) |})
  /\ concat (Spec.batches cluster_max_size ids) = ids
  /\ Forall (fun b => 0 < length b <= 50) (Spec.batches cluster_max_size ids)
  /\ length records = length (Spec.batches cluster_max_size ids)
  /\ (Forall2 (fun b rs => length rs = length b)
        (Spec.batches cluster_max_size ids) records ->
      length (concat records) = length ids)
  /\ (length ids = 120 ->
      map length (Spec.batches cluster_max_size ids) = [50; 50; 20]).
Proof.
  intros H. repeat split.
  - rewrite describe_clusters_serve, H. reflexivity.
  - apply concat_batches, cluster_max_size_pos.
  - exact (batches_sizes cluster_max_size ids cluster_max_size_pos).
  - apply serve_described_length in H as [H _]. exact H.
  - intros H2. rewrite (concat_same_length _ _ H2).
    rewrite concat_batches by apply cluster_max_size_pos. reflexivity.
  - apply batches_length_120.
Qed.

(** C5, as the code has it.  When the client answers a batch with no record,
    [describe_clusters] fails with the exception formatted with all the
    identifiers not yet described, from the requested batch (its first 50)
    onwards, having sent no request after that batch; and a failure of
    [describe_clusters] is either an exception the client raised or this
    one. *)
Theorem describe_clusters_failure ids s :
  (forall k s',
     Spec.serve ecs (Spec.batches cluster_max_size ids) s = (Spec.Undescribed k, s') ->
     describe_clusters ecs ids (Ecs.start s) =
       (Raise (PyException describe_error_fmt (drop (k * cluster_max_size) ids)),
        {| Ecs.state := s';
           Ecs.sent := map Ecs.DescribeClusters
                         (take (S k) (Spec.batches cluster_max_size ids)) |})
     /\ Spec.batches cluster_max_size ids !! k =
          Some (take cluster_max_size (drop (k * cluster_max_size) ids))
     /\ drop (k * cluster_max_size) ids <> [])
  /\ (forall e w',
     describe_clusters ecs ids (Ecs.start s) = (Raise e, w') ->
     (exists k, Spec.serve ecs (Spec.batches cluster_max_size ids) s =
                  (Spec.Refused k e, Ecs.state w'))
     \/ (exists k, Spec.serve ecs (Spec.batches cluster_max_size ids) s =
                     (Spec.Undescribed k, Ecs.state w')
                   /\ e = PyException describe_error_fmt
                            (drop (k * cluster_max_size) ids))).
Proof.
  split.
  - intros k s' H.
    assert (Hk : k * cluster_max_size < length ids).
    { apply batches_length_bound; [apply cluster_max_size_pos|].
      eapply serve_undescribed_bound; eauto. }
    split; [rewrite describe_clusters_serve, H; reflexivity|]. split.
    + apply batches_lookup; [apply cluster_max_size_pos | exact Hk].
    + intros E. apply (f_equal length) in E. rewrite length_drop in E.
      simpl in E. lia.
  - intros e w'. rewrite describe_clusters_serve.
    destruct (Spec.serve ecs (Spec.batches cluster_max_size ids) s)
      as [[records|k e0|k] s2]; unfold Spec.describe_outcome, Raise, Ok.
    + intros [=].
    + intros [= <- <-]. left. exists k. reflexivity.
    + intros [= <- <-]. right. exists k. split; reflexivity.
Qed.

(** C6. On the empty list [describe_clusters] returns the empty list at
    once: nothing is raised and no request is sent, the client and the log
    of requests being as they were. *)
Theorem describe_clusters_empty w : describe_clusters ecs [] w = (Ok [], w).
Proof. unfold describe_clusters. simp describe_clusters_loop. reflexivity. Qed.

End DescribeClaims.

(** ** list_clusters *)

Section ListFacts.

Import EcsClusterManager.

Context {St : Type} (ecs : Ecs.Client St).

(** A first response without a token, or with [None] for one, ends the
    listing with its identifiers. *)
Lemma list_clusters_without_token fuel s arns tok s' :
  Ecs.list_clusters ecs None s =
    (Ok {| Ecs.clusterArns := arns; Ecs.nextToken := tok |}, s') ->
  tok = None \/ tok = Some None ->
  list_clusters ecs fuel (Ecs.start s) =
    Some (Ok arns, {| Ecs.state := s'; Ecs.sent := [Ecs.ListClusters None] |}).
Proof.
  intros H Ht. unfold list_clusters, self_ecs_list_clusters. simpl. rewrite H.
  destruct Ht as [-> | ->]; simpl; [reflexivity|]. destruct fuel; reflexivity.
Qed.

(** A first response with a token takes the method into its loop, whose
    first statement raises: no second request is sent. *)
Lemma list_clusters_with_token fuel s arns t s' :
  Ecs.list_clusters ecs None s =
    (Ok {| Ecs.clusterArns := arns; Ecs.nextToken := Some (Some t) |}, s') ->
  list_clusters ecs (S fuel) (Ecs.start s) =
    Some (Raise (AttributeError
                   "EcsClusterManager instance has no attribute 'ecs_list_clusters'"),
          {| Ecs.state := s'; Ecs.sent := [Ecs.ListClusters None] |}).
Proof.
  intros H. unfold list_clusters, self_ecs_list_clusters. simpl. rewrite H.
  reflexivity.
Qed.

Lemma list_clusters_client_error fuel s e s' :
  Ecs.list_clusters ecs None s = (Raise e, s') ->
  list_clusters ecs fuel (Ecs.start s) =
    Some (Raise e, {| Ecs.state := s'; Ecs.sent := [Ecs.ListClusters None] |}).
Proof.
  intros H. unfold list_clusters, self_ecs_list_clusters. simpl. rewrite H.
  reflexivity.
Qed.

End ListFacts.

(** C1, at a provider with two pages.  The specification's pagination
    returns the identifiers of both pages; [list_clusters] reads the first
    page, enters its loop on the token and raises [AttributeError] at
    [self.ecs_list_clusters()]: the second page is never requested. *)
Theorem list_clusters_second_page_not_fetched (fuel : nat) :
  EcsClusterManager.list_clusters Stub.client (S fuel) (Ecs.start Stub.two_pages) =
    Some (Raise (AttributeError
                   "EcsClusterManager instance has no attribute 'ecs_list_clusters'"),
          {| Ecs.state := {| Stub.pages := [Stub.second_page];
                             Stub.known := Stub.nothing |};
             Ecs.sent := [Ecs.ListClusters None] |})
  /\ Spec.listClusters_spec Stub.client (S (S fuel)) (Ecs.start Stub.two_pages) =
    Some (Ok ["arn:a"; "arn:b"],
          {| Ecs.state := {| Stub.pages := []; Stub.known := Stub.nothing |};
             Ecs.sent := [Ecs.ListClusters None; Ecs.ListClusters (Some "t1")] |}).
Proof. split; reflexivity. Qed.

(** ** The properties at concrete inputs *)

Ltac has_str_all :=
  repeat (constructor; [eexists; reflexivity|]); constructor.

Lemma describe_clusters_batches_witness :
  Spec.serve Stub.client
    (Spec.batches EcsClusterManager.cluster_max_size (Stub.arns 120)) Stub.knows_all =
    (Spec.Described (map (map Stub.record_of) (Spec.batches 50 (Stub.arns 120))),
     Stub.knows_all)
  /\ EcsClusterManager.describe_clusters Stub.client (Stub.arns 120)
       (Ecs.start Stub.knows_all) =
     (Ok (map Stub.record_of (Stub.arns 120)),
      {| Ecs.state := Stub.knows_all;
         Ecs.sent := map Ecs.DescribeClusters
                       [take 50 (Stub.arns 120); take 50 (drop 50 (Stub.arns 120));
                        drop 100 (Stub.arns 120)] |})
  /\ length (map Stub.record_of (Stub.arns 120)) = 120.
Proof.
  assert (H : Spec.serve Stub.client
    (Spec.batches EcsClusterManager.cluster_max_size (Stub.arns 120)) Stub.knows_all =
    (Spec.Described (map (map Stub.record_of) (Spec.batches 50 (Stub.arns 120))),
     Stub.knows_all)) by reflexivity.
  split; [exact H|].
  destruct (describe_clusters_batches Stub.client _ _ _ _ H) as (E & _).
  split; [rewrite E; reflexivity | reflexivity].
Defined.


Lemma filter_clusters_substring_exact_witness :
  Forall (Spec.has_str "clusterName") Stub.three
  /\ EcsClusterManager.filter_clusters Re.fragment Stub.three "clusterName"
       "prod" "substring" = Ok [Stub.named "prod-a"; Stub.named "prod-b"]
  /\ EcsClusterManager.filter_clusters Re.fragment Stub.three "clusterName"
       "prod-a" "exact" = Ok [Stub.named "prod-a"].
Proof.
  assert (H : Forall (Spec.has_str "clusterName") Stub.three) by has_str_all.
  split; [exact H|]. split.
  - destruct (filter_clusters_substring_exact Re.fragment Stub.three "clusterName"
                "prod" H) as ((_ & E) & _).
    rewrite E. reflexivity.
  - destruct (filter_clusters_substring_exact Re.fragment Stub.three "clusterName"
                "prod-a" H) as (_ & (_ & E) & _).
    rewrite E. reflexivity.
Defined.

Lemma describe_clusters_failure_witness :
  Spec.serve Stub.client
    (Spec.batches EcsClusterManager.cluster_max_size (Stub.arns 51)) Stub.knows_none =
    (Spec.Undescribed 0, Stub.knows_none)
  /\ EcsClusterManager.describe_clusters Stub.client (Stub.arns 51)
       (Ecs.start Stub.knows_none) =
     (Raise (PyException EcsClusterManager.describe_error_fmt (Stub.arns 51)),
      {| Ecs.state := Stub.knows_none;
         Ecs.sent := [Ecs.DescribeClusters (take 50 (Stub.arns 51))] |})
  /\ ((exists k, Spec.serve Stub.client
                   (Spec.batches EcsClusterManager.cluster_max_size (Stub.arns 51))
                   Stub.knows_none =
                 (Spec.Refused k
                    (PyException EcsClusterManager.describe_error_fmt (Stub.arns 51)),
                  Stub.knows_none))
      \/ (exists k, Spec.serve Stub.client
                      (Spec.batches EcsClusterManager.cluster_max_size (Stub.arns 51))
                      Stub.knows_none =
                    (Spec.Undescribed k, Stub.knows_none)
                    /\ PyException EcsClusterManager.describe_error_fmt (Stub.arns 51) =
                       PyException EcsClusterManager.describe_error_fmt
                         (drop (k * EcsClusterManager.cluster_max_size) (Stub.arns 51)))).
Proof.
  assert (H : Spec.serve Stub.client
    (Spec.batches EcsClusterManager.cluster_max_size (Stub.arns 51)) Stub.knows_none =
    (Spec.Undescribed 0, Stub.knows_none)) by reflexivity.
  destruct (describe_clusters_failure Stub.client (Stub.arns 51) Stub.knows_none)
    as [H1 H2].
  destruct (H1 0 Stub.knows_none H) as (E & _).
  split; [exact H|]. split; [exact E|].
  exact (H2 _ _ E).
Defined.

(** At 51 identifiers none of which the provider knows, the one request
    sent is for the first 50, and the exception is not the one formatted
    with that batch: it lists all 51. *)
Lemma describe_clusters_message_not_the_batch :
  Spec.serve Stub.client
    (Spec.batches EcsClusterManager.cluster_max_size (Stub.arns 51)) Stub.knows_none =
    (Spec.Undescribed 0, Stub.knows_none)
  /\ Spec.batches EcsClusterManager.cluster_max_size (Stub.arns 51) !! 0 =
       Some (take 50 (Stub.arns 51))
  /\ ~ (exists w',
          EcsClusterManager.describe_clusters Stub.client (Stub.arns 51)
            (Ecs.start Stub.knows_none) =
          (Raise (PyException EcsClusterManager.describe_error_fmt
                    (take 50 (Stub.arns 51))), w')).
Proof.
  split; [reflexivity|]. split; [reflexivity|].
  intros [w' H]. rewrite describe_clusters_serve in H.
  vm_compute in H. discriminate H.
Qed.

Lemma filter_clusters_unrecognized_mode_witness :
  EcsClusterManager.filter_clusters Re.fragment Stub.three "clusterName" "prod" "refex"
    = Ok []
  /\ EcsClusterManager.filter_clusters Re.fragment Stub.three "no such field" "("
       "REGEX" = Ok [].
Proof.
  split; apply filter_clusters_unrecognized_mode; discriminate.
Defined.

Lemma filter_clusters_sublist_witness :
  EcsClusterManager.filter_clusters Re.fragment Stub.three "clusterName" "prod"
    "substring" = Ok [Stub.named "prod-a"; Stub.named "prod-b"]
  /\ [Stub.named "prod-a"; Stub.named "prod-b"] `sublist_of` Stub.three.
Proof.
  assert (H : EcsClusterManager.filter_clusters Re.fragment Stub.three "clusterName"
                "prod" "substring" = Ok [Stub.named "prod-a"; Stub.named "prod-b"])
    by reflexivity.
  split; [exact H|].
  exact (proj1 (filter_clusters_sublist Re.fragment Stub.three "clusterName" "prod"
                  "substring" _ H)).
Defined.

Lemma filter_clusters_default_identity_witness :
  Forall (Spec.has_str "clusterName") Stub.three
  /\ EcsClusterManager.filter_clusters Re.fragment Stub.three "clusterName" ""
       "substring" = Ok Stub.three.
Proof.
  assert (H : Forall (Spec.has_str "clusterName") Stub.three) by has_str_all.
  split; [exact H|].
  exact (filter_clusters_default_identity Re.fragment Stub.three "clusterName" H).
Defined.

Lemma filter_clusters_idempotent_witness :
  EcsClusterManager.filter_clusters Re.fragment Stub.three "clusterName" "prod-.*"
    "regex" = Ok [Stub.named "prod-a"; Stub.named "prod-b"]
  /\ EcsClusterManager.filter_clusters Re.fragment
       [Stub.named "prod-a"; Stub.named "prod-b"] "clusterName" "prod-.*" "regex"
     = Ok [Stub.named "prod-a"; Stub.named "prod-b"].
Proof.
  assert (H : EcsClusterManager.filter_clusters Re.fragment Stub.three "clusterName"
                "prod-.*" "regex" = Ok [Stub.named "prod-a"; Stub.named "prod-b"])
    by reflexivity.
  split; [exact H|].
  exact (filter_clusters_idempotent Re.fragment Stub.three "clusterName" "prod-.*"
           "regex" _ H).
Defined.

(** * Further properties *)

(** ** list_clusters, whatever the client answers *)

Section ListMore.

Import EcsClusterManager.

Context {St : Type} (ecs : Ecs.Client St).

(** The three ways the method ends, by the first answer of the client. *)
Lemma list_clusters_cases fuel s :
  let r := fst (Ecs.list_clusters ecs None s) in
  let w := {| Ecs.state := snd (Ecs.list_clusters ecs None s);
              Ecs.sent := [Ecs.ListClusters None] |} in
  list_clusters ecs (S fuel) (Ecs.start s) =
  Some (match r with
        | inl e => Raise e
        | inr response =>
            match Ecs.nextToken response with
            | Some (Some _) => Raise (AttributeError ecs_list_clusters_text)
            | _ => Ok (Ecs.clusterArns response)
            end
        end, w).
Proof.
  unfold list_clusters, self_ecs_list_clusters. simpl.
  destruct (Ecs.list_clusters ecs None s) as [[e|[arns tok]] s']; simpl;
    [reflexivity|].
  destruct tok as [[t|]|]; reflexivity.
Qed.

(** X1. Whatever the client answers, [list_clusters] ends (one turn of fuel
    is enough) having sent exactly one request, a list request without a
    token: a token received is never sent back. *)
Theorem list_clusters_single_request (fuel : nat) (s : St) :
  exists r,
    list_clusters ecs (S fuel) (Ecs.start s) =
    Some (r, {| Ecs.state := snd (Ecs.list_clusters ecs None s);
                Ecs.sent := [Ecs.ListClusters None] |}).
Proof. rewrite list_clusters_cases. eauto. Qed.

(** X2. [list_clusters] returns a list exactly when the first answer is a
    response without a token, or with [None] for a token; the list is the
    identifiers of that response. *)
Theorem list_clusters_returns_iff (fuel : nat) (s : St) (arns : list string)
    (w : Ecs.World St) :
  list_clusters ecs (S fuel) (Ecs.start s) = Some (Ok arns, w) <->
  (exists tok,
     Ecs.list_clusters ecs None s =
       (Ok {| Ecs.clusterArns := arns; Ecs.nextToken := tok |}, Ecs.state w)
     /\ (tok = None \/ tok = Some None))
  /\ Ecs.sent w = [Ecs.ListClusters None].
Proof.
  rewrite list_clusters_cases.
  destruct (Ecs.list_clusters ecs None s) as [[e|[arns' tok]] s']; simpl.
  - split; [intros [=]|]. intros [(tok & [=] & _) _].
  - destruct w as [ws wl]; simpl. destruct tok as [[t|]|]; unfold Ok, Raise; split.
    + intros [=].
    + intros [(tok & [= _ <- _] & [[=]|[=]]) _].
    + intros [= <- <- <-]. split; [exists (Some None); auto | reflexivity].
    + intros [(tok & [= <- _ <-] & _) ->]. reflexivity.
    + intros [= <- <- <-]. split; [exists None; auto | reflexivity].
    + intros [(tok & [= <- _ <-] & _) ->]. reflexivity.
Qed.

(** X3. [list_clusters] fails in two ways only: with the exception the
    client raised, passed on as it is, or with the [AttributeError] of its
    loop when the first response carries a token. *)
Theorem list_clusters_raises_iff (fuel : nat) (s : St) (e : PyErr)
    (w : Ecs.World St) :
  list_clusters ecs (S fuel) (Ecs.start s) = Some (Raise e, w) <->
  (Ecs.list_clusters ecs None s = (Raise e, Ecs.state w)
   \/ (exists arns t,
         Ecs.list_clusters ecs None s =
           (Ok {| Ecs.clusterArns := arns; Ecs.nextToken := Some (Some t) |},
            Ecs.state w)
         /\ e = AttributeError ecs_list_clusters_text))
  /\ Ecs.sent w = [Ecs.ListClusters None].
Proof.
  rewrite list_clusters_cases.
  destruct (Ecs.list_clusters ecs None s) as [[e'|[arns tok]] s']; simpl;
    destruct w as [ws wl]; simpl; unfold Ok, Raise.
  - split.
    + intros [= <- <- <-]. auto.
    + intros [[[= <- <-]|(arns & t & [=] & _)] ->]. reflexivity.
  - destruct tok as [[t|]|]; split.
    + intros [= <- <- <-]. split; [right; eauto | reflexivity].
    + intros [[[=]|(arns' & t' & [= _ _ <-] & ->)] ->]. reflexivity.
    + intros [=].
    + intros [[[=]|(arns' & t' & [=] & _)] _].
    + intros [=].
    + intros [[[=]|(arns' & t' & [=] & _)] _].
Qed.

End ListMore.

(** ** describe_clusters, whatever the client answers *)

Section DescribeMore.

Import EcsClusterManager.

Context {St : Type} (ecs : Ecs.Client St).

Implicit Types (ids : list string) (s : St) (w : Ecs.World St).

Lemma describe_clusters_serve_from ids w :
  describe_clusters ecs ids w =
  Spec.describe_outcome ids [] (Ecs.sent w)
    (Spec.serve ecs (Spec.batches cluster_max_size ids) (Ecs.state w)).
Proof. destruct w as [s log]. apply describe_clusters_loop_serve. Qed.

Lemma batches_count {A} (n : nat) (l : list A) :
  0 < n -> length (Spec.batches n l) = (length l + n - 1) / n.
Proof.
  intros Hn. revert l.
  apply (batch_ind n (fun l => length (Spec.batches n l) = (length l + n - 1) / n));
    [exact Hn | |].
  - simpl. symmetry. apply Nat.div_small. lia.
  - intros l Hl IH. rewrite batches_cons by auto. simpl length. rewrite IH.
    rewrite length_drop.
    assert (Hlen : 0 < length l) by (destruct l; [congruence | simpl; lia]).
    replace (length l + n - 1) with (length l - 1 + 1 * n) by lia.
    rewrite Nat.div_add by lia.
    destruct (le_lt_dec n (length l)) as [Hge|Hlt].
    + replace (length l - n + n - 1) with (length l - 1) by lia. lia.
    + replace (length l - n + n - 1) with (n - 1) by lia.
      rewrite !Nat.div_small by lia. reflexivity.
Qed.

Lemma batches_count_50 ids :
  length (Spec.batches cluster_max_size ids) = (length ids + 49) / 50.
Proof.
  rewrite (batches_count cluster_max_size ids cluster_max_size_pos).
  unfold cluster_max_size. f_equal. lia.
Qed.

Lemma serve_refused_bound (reqs : list (list string)) s k e s' :
  Spec.serve ecs reqs s = (Spec.Refused k e, s') -> k < length reqs.
Proof.
  revert s k e s'. induction reqs as [|req reqs IH]; intros s k e s'; simpl.
  - intros [=].
  - destruct (Ecs.describe_clusters ecs req s) as [[e0|response] s1];
      [intros [= <- _ _]; lia|].
    destruct (Ecs.clusters response); [intros [=]|].
    destruct (Spec.serve ecs reqs s1) as [[records|j e1|j] s2] eqn:E;
      simpl; intros [= <- _ _]. apply IH in E. lia.
Qed.

Lemma Forall_take_sizes (bs : list (list string)) (n : nat) :
  Forall (fun b => 0 < length b <= 50) bs ->
  Forall (fun b => 0 < length b <= 50) (take n bs).
Proof. apply Forall_take. Qed.

(** X4. Whether it returns or fails, the describe requests
    [describe_clusters] has sent are the first batches of its argument, in
    order, each asking for between 1 and 50 identifiers: all of them when
    the client describes every batch, and otherwise the batches up to the
    first one the client refused or left undescribed, batch [k], and none
    after it. *)
Theorem describe_clusters_requests ids s :
  exists n,
    Ecs.sent (snd (describe_clusters ecs ids (Ecs.start s))) =
      map Ecs.DescribeClusters (take n (Spec.batches cluster_max_size ids))
    /\ Forall (fun b => 0 < length b <= 50)
         (take n (Spec.batches cluster_max_size ids))
    /\ match fst (Spec.serve ecs (Spec.batches cluster_max_size ids) s) with
       | Spec.Described records =>
           n = length (Spec.batches cluster_max_size ids)
           /\ fst (describe_clusters ecs ids (Ecs.start s)) = Ok (concat records)
       | Spec.Refused k e =>
           n = S k /\ k < length (Spec.batches cluster_max_size ids)
           /\ fst (describe_clusters ecs ids (Ecs.start s)) = Raise e
       | Spec.Undescribed k =>
           n = S k /\ k < length (Spec.batches cluster_max_size ids)
           /\ fst (describe_clusters ecs ids (Ecs.start s)) =
                Raise (PyException describe_error_fmt
                         (drop (k * cluster_max_size) ids))
       end.
Proof.
  rewrite describe_clusters_serve.
  pose proof (batches_sizes cluster_max_size ids cluster_max_size_pos) as Hb.
  destruct (Spec.serve ecs (Spec.batches cluster_max_size ids) s)
    as [[records|k e|k] s'] eqn:E; unfold Spec.describe_outcome; simpl.
  - exists (length (Spec.batches cluster_max_size ids)).
    rewrite firstn_all. auto.
  - exists (S k). apply serve_refused_bound in E.
    split; [reflexivity|]. split; [apply Forall_take_sizes, Hb | auto].
  - exists (S k). apply serve_undescribed_bound in E.
    split; [reflexivity|]. split; [apply Forall_take_sizes, Hb | auto].
Qed.

(** X5. When the client raises on batch [k], [describe_clusters] raises the
    same exception, unchanged; the records of the batches before are not
    returned and the batches after are not requested. *)
Theorem describe_clusters_client_error ids s k e s' :
  Spec.serve ecs (Spec.batches cluster_max_size ids) s = (Spec.Refused k e, s') ->
  describe_clusters ecs ids (Ecs.start s) =
    (Raise e,
     {| Ecs.state := s';
        Ecs.sent := map Ecs.DescribeClusters
                      (take (S k) (Spec.batches cluster_max_size ids)) |})
  /\ k < length (Spec.batches cluster_max_size ids).
Proof.
  intros H. split; [rewrite describe_clusters_serve, H; reflexivity|].
  eapply serve_refused_bound; eauto.
Qed.

(** X6. [describe_clusters] returns exactly when the client answers every
    batch with at least one record; what it returns is then the answers
    appended, after one request per batch. *)
Theorem describe_clusters_returns_iff ids s (recs : list Cluster) w :
  describe_clusters ecs ids (Ecs.start s) = (Ok recs, w) <->
  exists records,
    Spec.serve ecs (Spec.batches cluster_max_size ids) s =
      (Spec.Described records, Ecs.state w)
    /\ recs = concat records
    /\ Ecs.sent w = map Ecs.DescribeClusters (Spec.batches cluster_max_size ids).
Proof.
  rewrite describe_clusters_serve. destruct w as [ws wl].
  destruct (Spec.serve ecs (Spec.batches cluster_max_size ids) s)
    as [[records|k e|k] s']; unfold Spec.describe_outcome, Ok, Raise; simpl; split.
  - intros [= <- <- <-]. eauto.
  - intros (records' & [= <- <-] & -> & ->). reflexivity.
  - intros [=].
  - intros (records' & [=] & _).
  - intros [=].
  - intros (records' & [=] & _).
Qed.

(** X7. When [describe_clusters] returns, it has sent as many requests as
    the number of identifiers divided by 50, rounded up, and it returns at
    least one record per request. *)
Theorem describe_clusters_request_count ids s (recs : list Cluster) w :
  describe_clusters ecs ids (Ecs.start s) = (Ok recs, w) ->
  length (Ecs.sent w) = (length ids + 49) / 50
  /\ length (Ecs.sent w) <= length recs.
Proof.
  intros H. apply describe_clusters_returns_iff in H as (records & H & -> & ->).
  rewrite length_map, batches_count_50.
  split; [reflexivity|].
  apply serve_described_length in H as [Hlen Hne].
  rewrite <- batches_count_50, <- Hlen.
  clear Hlen. induction Hne as [|rs records Hrs _ IH]; simpl; [lia|].
  rewrite length_app. destruct rs; [congruence|]. simpl. lia.
Qed.

End DescribeMore.

(** ** filter_clusters: errors, types and composition *)

Section FilterMore.

Import EcsClusterManager.

Context (re : Re.Engine).

Implicit Types (c : Cluster) (clusters pre post out : list Cluster).
Implicit Types (field pattern mode : string) (l : Locals).

Lemma filter_loop_app field pattern mode pre post l :
  filter_loop re field pattern mode (pre ++ post) l =
  let* l' := filter_loop re field pattern mode pre l in
  filter_loop re field pattern mode post l'.
Proof.
  revert l. induction pre as [|c pre IH]; intros l; simpl; [reflexivity|].
  destruct (filter_body re field pattern mode c l) as [e|l1]; simpl; auto.
Qed.

(** The first record the body cannot decide ends the method with the
    exception of that record. *)
Lemma filter_clusters_raise_at field pattern mode pre c post e :
  Forall (fun c' => exists b, Spec.verdict re field pattern mode c' = Ok b) pre ->
  Spec.verdict re field pattern mode c = Raise e ->
  filter_clusters re (pre ++ c :: post) field pattern mode = Raise e.
Proof.
  intros Hpre Hc. unfold filter_clusters, filter_clusters_run.
  rewrite filter_loop_app.
  destruct (filter_loop re field pattern mode pre _) as [e'|l'] eqn:E.
  - exfalso.
    assert (E' : filter_loop re field pattern mode pre
                   {| clusters := pre ++ c :: post; filtered_clusters := [] |} =
                 Ok {| clusters := pre ++ c :: post;
                       filtered_clusters :=
                         [] ++ List.filter (Spec.kept re field pattern mode) pre |})
      by (apply filter_loop_spec; auto).
    rewrite E in E'. discriminate.
  - simpl. rewrite filter_body_verdict, Hc. reflexivity.
Qed.

Lemma verdict_decided field pattern mode c :
  (mode = "regex" -> exists p, Re.compile re pattern = Ok p) ->
  Spec.has_str field c ->
  exists b, Spec.verdict re field pattern mode c = Ok b.
Proof.
  intros Hre [s Hs]. unfold Spec.verdict, getitem, re_match. rewrite Hs. simpl.
  destruct (String.eqb mode "substring"); [eauto|].
  destruct (String.eqb mode "exact"); [eauto|].
  destruct (String.eqb_spec mode "regex") as [->|_]; [|eauto].
  destruct Hre as [p Hp]; [reflexivity|]. rewrite Hp. simpl. eauto.
Qed.

Lemma verdict_missing field pattern mode c :
  known_mode mode -> c !! field = None ->
  Spec.verdict re field pattern mode c = Raise (KeyError field).
Proof.
  intros [-> | [-> | ->]] Hc; unfold Spec.verdict, getitem; rewrite Hc; reflexivity.
Qed.

Lemma filter_comm (f g : Cluster -> bool) clusters :
  List.filter f (List.filter g clusters) = List.filter g (List.filter f clusters).
Proof.
  induction clusters as [|c clusters IH]; simpl; [reflexivity|].
  destruct (g c) eqn:Eg, (f c) eqn:Ef; simpl; rewrite ?Eg, ?Ef, IH; reflexivity.
Qed.

Lemma filter_sublist_impl (f g : Cluster -> bool) clusters :
  (forall c, f c = true -> g c = true) ->
  List.filter f clusters `sublist_of` List.filter g clusters.
Proof.
  intros H. induction clusters as [|c clusters IH]; simpl; [constructor|].
  destruct (f c) eqn:Ef.
  - rewrite (H c Ef). constructor. exact IH.
  - destruct (g c); [constructor|]; exact IH.
Qed.

Lemma Forall_filter_decided (P : Cluster -> Prop) (f : Cluster -> bool) clusters :
  Forall P clusters -> Forall P (List.filter f clusters).
Proof.
  intros H. rewrite Forall_forall in *. intros c Hc. apply H.
  apply list_elem_of_In, List.filter_In in Hc as [Hc _].
  apply list_elem_of_In. exact Hc.
Qed.

(** X8. In mode [exact] the field only has to be present: whatever the type
    of its value nothing is raised, and a value that is not a string is
    never kept. *)
Theorem filter_clusters_exact_any_type clusters field pattern :
  Forall (fun c => is_Some (c !! field)) clusters ->
  filter_clusters re clusters field pattern "exact" =
  Ok (List.filter (Spec.field_test (fun s => String.eqb s pattern) field) clusters).
Proof.
  intros H. apply filter_clusters_test.
  eapply Forall_impl; [exact H|]. intros c [v Hv].
  unfold Spec.verdict, Spec.field_test, getitem. rewrite Hv. simpl.
  destruct v; reflexivity.
Qed.

(** X9. In the three modes a record without the field makes the method
    raise [KeyError] for that field, when the records before it could be
    decided; no list is returned, not even of the records kept so far. *)
Theorem filter_clusters_missing_field field pattern mode pre c post :
  known_mode mode ->
  (mode = "regex" -> exists p, Re.compile re pattern = Ok p) ->
  Forall (Spec.has_str field) pre ->
  c !! field = None ->
  filter_clusters re (pre ++ c :: post) field pattern mode = Raise (KeyError field).
Proof.
  intros Hm Hre Hpre Hc. apply filter_clusters_raise_at.
  - eapply Forall_impl; [exact Hpre|]. intros c' Hc'.
    apply verdict_decided; auto.
  - apply verdict_missing; auto.
Qed.

(** X10. In mode [substring] a record whose field is an integer, such as a
    task count, makes the method raise [TypeError]. *)
Theorem filter_clusters_substring_integer field pattern pre c post (n : Z) :
  Forall (Spec.has_str field) pre ->
  c !! field = Some (VInt n) ->
  filter_clusters re (pre ++ c :: post) field pattern "substring" =
  Raise (TypeError "argument of type 'int' is not iterable").
Proof.
  intros Hpre Hc. apply filter_clusters_raise_at.
  - eapply Forall_impl; [exact Hpre|]. intros c' Hc'.
    apply verdict_decided; [discriminate | exact Hc'].
  - unfold Spec.verdict, getitem. rewrite Hc. reflexivity.
Qed.

(** X11. A pattern that does not compile is only noticed when there is a
    record to test: on the empty list mode [regex] returns the empty list,
    and on a list whose first record has the field it raises the error of
    the compilation. *)
Theorem filter_clusters_bad_pattern field pattern e :
  Re.compile re pattern = Raise e ->
  filter_clusters re [] field pattern "regex" = Ok []
  /\ (forall c clusters,
        is_Some (c !! field) ->
        filter_clusters re (c :: clusters) field pattern "regex" = Raise e).
Proof.
  intros He. split; [reflexivity|]. intros c clusters [v Hv].
  apply (filter_clusters_raise_at field pattern "regex" [] c clusters e);
    [constructor|].
  unfold Spec.verdict, getitem, re_match. rewrite Hv. simpl. rewrite He. reflexivity.
Qed.

(** X12. Filtering a concatenation is filtering its two parts: the method
    returns on [pre ++ post] exactly when it returns on both, and the result
    is the two results appended. *)
Theorem filter_clusters_app field pattern mode pre post out :
  filter_clusters re (pre ++ post) field pattern mode = Ok out <->
  exists out1 out2,
    filter_clusters re pre field pattern mode = Ok out1
    /\ filter_clusters re post field pattern mode = Ok out2
    /\ out = out1 ++ out2.
Proof.
  rewrite filter_clusters_spec, Forall_app, List.filter_app. split.
  - intros [[H1 H2] ->]. eexists _, _.
    split; [apply filter_clusters_spec; eauto|].
    split; [apply filter_clusters_spec; eauto | reflexivity].
  - intros (out1 & out2 & H1 & H2 & ->).
    apply filter_clusters_spec in H1 as [H1 ->].
    apply filter_clusters_spec in H2 as [H2 ->]. auto.
Qed.

(** X13. Two criteria can be applied in either order: if the method returns
    on a list for each of them, filtering the result of one by the other
    gives the same list both ways. *)
Theorem filter_clusters_commute clusters field1 pattern1 mode1 field2 pattern2 mode2
    out1 out2 :
  filter_clusters re clusters field1 pattern1 mode1 = Ok out1 ->
  filter_clusters re clusters field2 pattern2 mode2 = Ok out2 ->
  exists out,
    filter_clusters re out1 field2 pattern2 mode2 = Ok out
    /\ filter_clusters re out2 field1 pattern1 mode1 = Ok out.
Proof.
  intros H1 H2.
  apply filter_clusters_spec in H1 as [H1 ->].
  apply filter_clusters_spec in H2 as [H2 ->].
  exists (List.filter (Spec.kept re field2 pattern2 mode2)
            (List.filter (Spec.kept re field1 pattern1 mode1) clusters)).
  split; apply filter_clusters_spec.
  - split; [apply Forall_filter_decided; exact H2 | reflexivity].
  - split; [apply Forall_filter_decided; exact H1 | apply filter_comm].
Qed.

(** X14. On records carrying the field as a string, what mode [exact] keeps
    for a pattern is among what mode [substring] keeps for it, in the same
    order. *)
Theorem filter_clusters_exact_within_substring clusters field pattern :
  Forall (Spec.has_str field) clusters ->
  exists exact substring,
    filter_clusters re clusters field pattern "exact" = Ok exact
    /\ filter_clusters re clusters field pattern "substring" = Ok substring
    /\ exact `sublist_of` substring.
Proof.
  intros H. eexists _, _. split; [|split].
  - apply filter_clusters_test. eapply Forall_impl; [exact H|].
    intros c Hc. apply verdict_exact; exact Hc.
  - apply filter_clusters_test. eapply Forall_impl; [exact H|].
    intros c Hc. apply verdict_substring; exact Hc.
  - apply filter_sublist_impl. intros c. unfold Spec.field_test.
    destruct (c !! field) as [[s|n]|]; try discriminate.
    intros E. apply String.eqb_eq in E as ->.
    apply str_contains_spec. exists "", "". rewrite append_nil_r. reflexivity.
Qed.

End FilterMore.

(** ** main *)

Section MainMore.

Import EcsClusterManager.

Context {St : Type} (ecs : Ecs.Client St) (re : Re.Engine).

Implicit Types (env : Main.Env) (params : Params) (s : St) (w : Ecs.World St).

(** With the imports, the region and the connection in place, [main] is its
    [try] block. *)
Lemma main_ready env params fuel s :
  Main.ready env ->
  Main.main ecs re env params fuel s =
  match list_clusters ecs fuel (Ecs.start s) with
  | None => None
  | Some (inl e, w) =>
      Some (Main.fail_json (Main.exception_prefix params) (Some e), w)
  | Some (inr cluster_arns, w) =>
      match describe_clusters ecs cluster_arns w with
      | (inl e, w') =>
          Some (Main.fail_json (Main.exception_prefix params) (Some e), w')
      | (inr cluster_details, w') =>
          match filter_clusters re cluster_details "clusterName" (name params)
                  (search_mode params) with
          | inl e => Some (Main.fail_json (Main.exception_prefix params) (Some e), w')
          | inr cluster_filtered => Some (Main.exit_json false cluster_filtered, w')
          end
      end
  end.
Proof.
  intros (H1 & H2 & H3 & H4). unfold Main.main, Main.init.
  rewrite H1, H2, H3, H4. reflexivity.
Qed.

Lemma list_clusters_ok_inv fuel s arns w :
  list_clusters ecs fuel (Ecs.start s) = Some (Ok arns, w) ->
  (exists tok,
     Ecs.list_clusters ecs None s =
       (Ok {| Ecs.clusterArns := arns; Ecs.nextToken := tok |}, Ecs.state w))
  /\ Ecs.sent w = [Ecs.ListClusters None].
Proof.
  unfold list_clusters, self_ecs_list_clusters. simpl.
  destruct (Ecs.list_clusters ecs None s) as [[e|[arns' tok]] s']; simpl;
    unfold Ok; [intros [=]|].
  destruct tok as [[t|]|]; simpl.
  - destruct fuel; simpl; intros [=].
  - destruct fuel; simpl; intros [= <- <-]; simpl; eauto.
  - intros [= <- <-]; simpl; eauto.
Qed.

(** X15. Without [boto], without [boto3], without a region or without a
    connection, [main] ends before any request is sent, and not with
    [exit_json]. *)
Theorem main_guards env params fuel s :
  Main.HAS_BOTO env = false \/ Main.HAS_BOTO3 env = false
  \/ Main.not_ (Main.region env) = true \/ Main.boto3_conn env <> Main.Connected ->
  exists exit,
    Main.main ecs re env params fuel s = Some (exit, Ecs.start s)
    /\ (forall changed clusters, exit <> Main.exit_json changed clusters).
Proof.
  intros H. unfold Main.main, Main.init.
  destruct (Main.HAS_BOTO env); simpl; [|eexists; split; [reflexivity | discriminate]].
  destruct (Main.HAS_BOTO3 env); simpl; [|eexists; split; [reflexivity | discriminate]].
  destruct (Main.not_ (Main.region env)); simpl;
    [eexists; split; [reflexivity | discriminate]|].
  destruct (Main.boto3_conn env); simpl;
    try (eexists; split; [reflexivity | discriminate]).
  destruct H as [H|[H|[H|H]]]; try discriminate. congruence.
Qed.

(** X16. When the listing fits in one response, the client describes every
    batch and the filter returns, [main] exits with [changed=False] and the
    filtered records, having sent the list request and then one describe
    request per batch of 50. *)
Theorem main_success env params fuel s arns tok s1 records s2 out :
  Main.ready env ->
  Ecs.list_clusters ecs None s =
    (Ok {| Ecs.clusterArns := arns; Ecs.nextToken := tok |}, s1) ->
  tok = None \/ tok = Some None ->
  Spec.serve ecs (Spec.batches cluster_max_size arns) s1 = (Spec.Described records, s2) ->
  filter_clusters re (concat records) "clusterName" (name params) (search_mode params)
    = Ok out ->
  Main.main ecs re env params fuel s =
  Some (Main.exit_json false out,
        {| Ecs.state := s2;
           Ecs.sent := Ecs.ListClusters None
                       :: map Ecs.DescribeClusters (Spec.batches cluster_max_size arns) |}).
Proof.
  intros Hready Hlist Htok Hserve Hfilter.
  rewrite (main_ready env params fuel s Hready).
  rewrite (list_clusters_without_token ecs fuel s arns tok s1 Hlist Htok).
  unfold Ok. cbv beta iota.
  rewrite describe_clusters_serve_from. simpl. rewrite Hserve.
  unfold Spec.describe_outcome. simpl. unfold Ok in Hfilter. rewrite Hfilter.
  reflexivity.
Qed.

(** X17. Called with its defaults, [main] reports every cluster the provider
    described, in the order of the listing, when the listing fits in one
    response and every record has a name. *)
Theorem main_default_reports_all env fuel s arns tok s1 records s2 :
  Main.ready env ->
  Ecs.list_clusters ecs None s =
    (Ok {| Ecs.clusterArns := arns; Ecs.nextToken := tok |}, s1) ->
  tok = None \/ tok = Some None ->
  Spec.serve ecs (Spec.batches cluster_max_size arns) s1 = (Spec.Described records, s2) ->
  Forall (Spec.has_str "clusterName") (concat records) ->
  Main.main ecs re env default_params fuel s =
  Some (Main.exit_json false (concat records),
        {| Ecs.state := s2;
           Ecs.sent := Ecs.ListClusters None
                       :: map Ecs.DescribeClusters (Spec.batches cluster_max_size arns) |}).
Proof.
  intros Hready Hlist Htok Hserve Hnames.
  rewrite (main_ready env default_params fuel s Hready).
  rewrite (list_clusters_without_token ecs fuel s arns tok s1 Hlist Htok).
  unfold Ok. cbv beta iota.
  rewrite describe_clusters_serve_from. simpl. rewrite Hserve.
  unfold Spec.describe_outcome. simpl.
  rewrite (filter_clusters_test re "clusterName" "" "substring" (fun _ => true)).
  - do 3 f_equal. clear. induction (concat records); simpl; f_equal; auto.
  - eapply Forall_impl; [exact Hnames|]. intros c Hc.
    rewrite verdict_substring by exact Hc. destruct Hc as [n Hn].
    unfold Spec.field_test. rewrite Hn, str_contains_empty. reflexivity.
Qed.

(** X18. When the first list response carries a token, [main] fails: the
    [AttributeError] of [list_clusters] is caught and reported through
    [fail_json], and no cluster is described. *)
Theorem main_fails_on_token env params fuel s arns t s1 :
  Main.ready env ->
  Ecs.list_clusters ecs None s =
    (Ok {| Ecs.clusterArns := arns; Ecs.nextToken := Some (Some t) |}, s1) ->
  Main.main ecs re env params (S fuel) s =
  Some (Main.fail_json (Main.exception_prefix params)
          (Some (AttributeError ecs_list_clusters_text)),
        {| Ecs.state := s1; Ecs.sent := [Ecs.ListClusters None] |}).
Proof.
  intros Hready Hlist.
  rewrite (main_ready env params (S fuel) s Hready).
  rewrite (list_clusters_with_token ecs fuel s arns t s1 Hlist). reflexivity.
Qed.

(** X19. Once the manager has its client, [main] handles every exception of
    the three methods: it ends with [exit_json] and [changed=False], or with
    [fail_json] and a message that starts with the name searched for and
    ends with the text of the exception; never with a traceback. *)
Theorem main_handles_exceptions env params fuel s :
  Main.ready env ->
  exists exit w,
    Main.main ecs re env params (S fuel) s = Some (exit, w)
    /\ ((exists clusters, exit = Main.exit_json false clusters)
        \/ (exists e, exit = Main.fail_json (Main.exception_prefix params) (Some e))).
Proof.
  intros Hready. rewrite (main_ready env params (S fuel) s Hready).
  rewrite list_clusters_cases.
  destruct (fst (Ecs.list_clusters ecs None s)) as [e|response]; [unfold Raise; eauto 6|].
  assert (Hdescribe : forall ids w0, exists exit w,
    match describe_clusters ecs ids w0 with
    | (inl e, w') => Some (Main.fail_json (Main.exception_prefix params) (Some e), w')
    | (inr cluster_details, w') =>
        match filter_clusters re cluster_details "clusterName" (name params)
                (search_mode params) with
        | inl e => Some (Main.fail_json (Main.exception_prefix params) (Some e), w')
        | inr cluster_filtered => Some (Main.exit_json false cluster_filtered, w')
        end
    end = Some (exit, w)
    /\ ((exists clusters, exit = Main.exit_json false clusters)
        \/ (exists e, exit = Main.fail_json (Main.exception_prefix params) (Some e)))).
  { intros ids w0. destruct (describe_clusters ecs ids w0) as [[e|details] w'];
      [eauto 6|].
    destruct (filter_clusters re details _ _ _) as [e|out]; eauto 6. }
  destruct (Ecs.nextToken response) as [[t|]|]; unfold Raise, Ok; eauto 6.
Qed.

(** X20. Whatever [main] reports through [exit_json] was described by the
    client: it is, in order, part of the records answered to the describe
    requests for the identifiers listed, and [changed] is [False]. *)
Theorem main_reports_described env params fuel s changed out w :
  Main.main ecs re env params fuel s = Some (Main.exit_json changed out, w) ->
  changed = false
  /\ exists arns tok s1 records,
       Ecs.list_clusters ecs None s =
         (Ok {| Ecs.clusterArns := arns; Ecs.nextToken := tok |}, s1)
       /\ Spec.serve ecs (Spec.batches cluster_max_size arns) s1 =
            (Spec.Described records, Ecs.state w)
       /\ out `sublist_of` concat records.
Proof.
  unfold Main.main.
  destruct (negb (Main.HAS_BOTO env)); [intros [=]|].
  destruct (negb (Main.HAS_BOTO3 env)); [intros [=]|].
  destruct (Main.init env) as [exit|[]] eqn:Einit.
  { unfold Main.init in Einit.
    destruct (Main.not_ (Main.region env)); [injection Einit as <-; intros [=]|].
    destruct (Main.boto3_conn env); try discriminate;
      injection Einit as <-; intros [=]. }
  destruct (list_clusters ecs fuel (Ecs.start s)) as [[[e|arns] w1]|] eqn:Elist;
    [intros [=] | | intros [=]].
  apply list_clusters_ok_inv in Elist as [[tok Hlist] Hsent].
  rewrite describe_clusters_serve_from.
  destruct (Spec.serve ecs (Spec.batches cluster_max_size arns) (Ecs.state w1))
    as [[records|k e|k] s2] eqn:Eserve; unfold Spec.describe_outcome; simpl;
    [|intros [=]..].
  destruct (filter_clusters re (concat records) _ _ _) as [e|out'] eqn:Efilter;
    [intros [=]|].
  intros [= <- <- <-]. split; [reflexivity|].
  exists arns, tok, (Ecs.state w1), records. simpl. split; [exact Hlist|].
  split; [exact Eserve|].
  apply filter_clusters_spec in Efilter as [_ ->]. apply filter_sublist.
Qed.

End MainMore.

(** ** The further properties at concrete inputs *)

Ltac is_some_all :=
  repeat (constructor; [eexists; reflexivity|]); constructor.

Lemma describe_clusters_client_error_witness :
  Spec.serve Stub2.budget_client
    (Spec.batches EcsClusterManager.cluster_max_size (Stub.arns 120)) 1 =
    (Spec.Refused 1 (ClientError "ThrottlingException"), 0)
  /\ EcsClusterManager.describe_clusters Stub2.budget_client (Stub.arns 120)
       (Ecs.start 1) =
     (Raise (ClientError "ThrottlingException"),
      {| Ecs.state := 0;
         Ecs.sent := map Ecs.DescribeClusters
                       [take 50 (Stub.arns 120); take 50 (drop 50 (Stub.arns 120))] |}).
Proof.
  assert (H : Spec.serve Stub2.budget_client
    (Spec.batches EcsClusterManager.cluster_max_size (Stub.arns 120)) 1 =
    (Spec.Refused 1 (ClientError "ThrottlingException"), 0)) by reflexivity.
  split; [exact H|].
  destruct (describe_clusters_client_error Stub2.budget_client _ _ _ _ _ H) as [E _].
  rewrite E. reflexivity.
Defined.

Lemma describe_clusters_request_count_witness :
  EcsClusterManager.describe_clusters Stub.client (Stub.arns 120)
    (Ecs.start Stub.knows_all) =
    (Ok (map Stub.record_of (Stub.arns 120)),
     {| Ecs.state := Stub.knows_all;
        Ecs.sent := map Ecs.DescribeClusters (Spec.batches 50 (Stub.arns 120)) |})
  /\ length (map Ecs.DescribeClusters (Spec.batches 50 (Stub.arns 120))) = 3.
Proof.
  assert (H : EcsClusterManager.describe_clusters Stub.client (Stub.arns 120)
    (Ecs.start Stub.knows_all) =
    (Ok (map Stub.record_of (Stub.arns 120)),
     {| Ecs.state := Stub.knows_all;
        Ecs.sent := map Ecs.DescribeClusters (Spec.batches 50 (Stub.arns 120)) |}))
    by (rewrite describe_clusters_serve; reflexivity).
  split; [exact H|].
  destruct (describe_clusters_request_count Stub.client _ _ _ _ H) as [E _].
  exact E.
Defined.

Lemma filter_clusters_exact_any_type_witness :
  Forall (fun c : Cluster => is_Some (c !! "runningTasksCount"))
    [Stub2.counted "prod-a" 3; Stub2.counted "prod-b" 0]
  /\ EcsClusterManager.filter_clusters Re.fragment
       [Stub2.counted "prod-a" 3; Stub2.counted "prod-b" 0] "runningTasksCount" "3"
       "exact" = Ok [].
Proof.
  assert (H : Forall (fun c : Cluster => is_Some (c !! "runningTasksCount"))
                [Stub2.counted "prod-a" 3; Stub2.counted "prod-b" 0]) by is_some_all.
  split; [exact H|].
  rewrite (filter_clusters_exact_any_type Re.fragment _ "runningTasksCount" "3" H).
  reflexivity.
Defined.

Lemma filter_clusters_missing_field_witness :
  EcsClusterManager.filter_clusters Re.fragment
    ([Stub.named "prod-a"] ++ Stub2.unnamed :: [Stub.named "prod-b"])
    "clusterName" "prod" "substring" = Raise (KeyError "clusterName").
Proof.
  apply filter_clusters_missing_field.
  - left. reflexivity.
  - discriminate.
  - is_some_all.
  - reflexivity.
Defined.

Lemma filter_clusters_substring_integer_witness :
  EcsClusterManager.filter_clusters Re.fragment
    ([] ++ Stub2.counted "prod-a" 3 :: [Stub2.counted "prod-b" 0])
    "runningTasksCount" "3" "substring" =
  Raise (TypeError "argument of type 'int' is not iterable").
Proof.
  apply (filter_clusters_substring_integer Re.fragment "runningTasksCount" "3" []
           (Stub2.counted "prod-a" 3) [Stub2.counted "prod-b" 0] 3).
  - constructor.
  - reflexivity.
Defined.

Lemma filter_clusters_bad_pattern_witness :
  Re.compile Re.fragment "(" = Raise (ReError "(")
  /\ EcsClusterManager.filter_clusters Re.fragment [] "clusterName" "(" "regex" = Ok []
  /\ EcsClusterManager.filter_clusters Re.fragment Stub.three "clusterName" "("
       "regex" = Raise (ReError "(").
Proof.
  destruct (filter_clusters_bad_pattern Re.fragment "clusterName" "(" (ReError "(")
              eq_refl) as [H1 H2].
  split; [reflexivity|]. split; [exact H1|].
  apply (H2 (Stub.named "prod-a") [Stub.named "prod-b"; Stub.named "stage-a"]).
  eexists. reflexivity.
Defined.

Lemma filter_clusters_commute_witness :
  EcsClusterManager.filter_clusters Re.fragment Stub.three "clusterName" "prod"
    "substring" = Ok [Stub.named "prod-a"; Stub.named "prod-b"]
  /\ EcsClusterManager.filter_clusters Re.fragment Stub.three "clusterName" ".*-a"
       "regex" = Ok [Stub.named "prod-a"; Stub.named "stage-a"]
  /\ exists out,
       EcsClusterManager.filter_clusters Re.fragment
         [Stub.named "prod-a"; Stub.named "prod-b"] "clusterName" ".*-a" "regex" = Ok out
       /\ EcsClusterManager.filter_clusters Re.fragment
            [Stub.named "prod-a"; Stub.named "stage-a"] "clusterName" "prod"
            "substring" = Ok out.
Proof.
  assert (H1 : EcsClusterManager.filter_clusters Re.fragment Stub.three "clusterName"
                 "prod" "substring" = Ok [Stub.named "prod-a"; Stub.named "prod-b"])
    by reflexivity.
  assert (H2 : EcsClusterManager.filter_clusters Re.fragment Stub.three "clusterName"
                 ".*-a" "regex" = Ok [Stub.named "prod-a"; Stub.named "stage-a"])
    by reflexivity.
  split; [exact H1|]. split; [exact H2|].
  exact (filter_clusters_commute Re.fragment Stub.three _ _ _ _ _ _ _ _ H1 H2).
Defined.

Lemma filter_clusters_exact_within_substring_witness :
  Forall (Spec.has_str "clusterName") Stub.three
  /\ exists exact substring,
       EcsClusterManager.filter_clusters Re.fragment Stub.three "clusterName" "prod-a"
         "exact" = Ok exact
       /\ EcsClusterManager.filter_clusters Re.fragment Stub.three "clusterName"
            "prod-a" "substring" = Ok substring
       /\ exact `sublist_of` substring.
Proof.
  assert (H : Forall (Spec.has_str "clusterName") Stub.three) by has_str_all.
  split; [exact H|].
  exact (filter_clusters_exact_within_substring Re.fragment Stub.three "clusterName"
           "prod-a" H).
Defined.

Lemma main_guards_witness :
  exists exit,
    Main.main Stub.client Re.fragment
      {| Main.HAS_BOTO := true; Main.HAS_BOTO3 := true; Main.region := Some "";
         Main.boto3_conn := Main.Connected |}
      EcsClusterManager.default_params 1 Stub2.one_page =
    Some (exit, Ecs.start Stub2.one_page)
    /\ (forall changed clusters, exit <> Main.exit_json changed clusters).
Proof.
  apply main_guards. right. right. left. reflexivity.
Defined.

Lemma main_success_witness :
  Main.main Stub.client Re.fragment Stub2.env
    {| EcsClusterManager.name := "prod"; EcsClusterManager.search_mode := "substring" |}
    1 Stub2.one_page =
  Some (Main.exit_json false [Stub.record_of "prod-a"; Stub.record_of "prod-b"],
        {| Ecs.state := Stub2.served;
           Ecs.sent := [Ecs.ListClusters None;
                        Ecs.DescribeClusters ["prod-a"; "prod-b"; "stage-a"]] |}).
Proof.
  apply (main_success Stub.client Re.fragment Stub2.env _ 1 Stub2.one_page
           ["prod-a"; "prod-b"; "stage-a"] None Stub2.served
           [[Stub.record_of "prod-a"; Stub.record_of "prod-b"; Stub.record_of "stage-a"]]
           Stub2.served).
  - repeat split.
  - reflexivity.
  - left. reflexivity.
  - reflexivity.
  - reflexivity.
Defined.

Lemma main_default_reports_all_witness :
  Main.main Stub.client Re.fragment Stub2.env EcsClusterManager.default_params 1
    Stub2.one_page =
  Some (Main.exit_json false
          (concat [[Stub.record_of "prod-a"; Stub.record_of "prod-b";
                    Stub.record_of "stage-a"]]),
        {| Ecs.state := Stub2.served;
           Ecs.sent := Ecs.ListClusters None
                       :: map Ecs.DescribeClusters
                            (Spec.batches EcsClusterManager.cluster_max_size
                               ["prod-a"; "prod-b"; "stage-a"]) |}).
Proof.
  apply (main_default_reports_all Stub.client Re.fragment Stub2.env 1 Stub2.one_page
           ["prod-a"; "prod-b"; "stage-a"] None Stub2.served
           [[Stub.record_of "prod-a"; Stub.record_of "prod-b"; Stub.record_of "stage-a"]]
           Stub2.served).
  - repeat split.
  - reflexivity.
  - left. reflexivity.
  - reflexivity.
  - has_str_all.
Defined.

Lemma main_fails_on_token_witness :
  Main.main Stub.client Re.fragment Stub2.env EcsClusterManager.default_params 1
    Stub.two_pages =
  Some (Main.fail_json "Exception describing cluster '': "
          (Some (AttributeError ecs_list_clusters_text)),
        {| Ecs.state := {| Stub.pages := [Stub.second_page];
                           Stub.known := Stub.nothing |};
           Ecs.sent := [Ecs.ListClusters None] |}).
Proof.
  apply (main_fails_on_token Stub.client Re.fragment Stub2.env
           EcsClusterManager.default_params 0 Stub.two_pages ["arn:a"] "t1").
  - repeat split.
  - reflexivity.
Defined.

Lemma main_handles_exceptions_witness :
  exists exit w,
    Main.main Stub.client Re.fragment Stub2.env
      {| EcsClusterManager.name := "("; EcsClusterManager.search_mode := "regex" |}
      1 Stub2.one_page = Some (exit, w)
    /\ ((exists clusters, exit = Main.exit_json false clusters)
        \/ (exists e, exit = Main.fail_json "Exception describing cluster '(': " (Some e))).
Proof.
  apply (main_handles_exceptions Stub.client Re.fragment Stub2.env
           {| EcsClusterManager.name := "(";
              EcsClusterManager.search_mode := "regex" |} 0 Stub2.one_page).
  repeat split.
Defined.

Lemma main_reports_described_witness :
  Main.main Stub.client Re.fragment Stub2.env
    {| EcsClusterManager.name := "prod"; EcsClusterManager.search_mode := "substring" |}
    1 Stub2.one_page =
  Some (Main.exit_json false [Stub.record_of "prod-a"; Stub.record_of "prod-b"],
        {| Ecs.state := Stub2.served;
           Ecs.sent := [Ecs.ListClusters None;
                        Ecs.DescribeClusters ["prod-a"; "prod-b"; "stage-a"]] |})
  /\ exists arns tok s1 records,
       Ecs.list_clusters Stub.client None Stub2.one_page =
         (Ok {| Ecs.clusterArns := arns; Ecs.nextToken := tok |}, s1)
       /\ Spec.serve Stub.client
            (Spec.batches EcsClusterManager.cluster_max_size arns) s1 =
            (Spec.Described records, Stub2.served)
       /\ [Stub.record_of "prod-a"; Stub.record_of "prod-b"] `sublist_of`
            concat records.
Proof.
  assert (H : Main.main Stub.client Re.fragment Stub2.env
    {| EcsClusterManager.name := "prod"; EcsClusterManager.search_mode := "substring" |}
    1 Stub2.one_page =
  Some (Main.exit_json false [Stub.record_of "prod-a"; Stub.record_of "prod-b"],
        {| Ecs.state := Stub2.served;
           Ecs.sent := [Ecs.ListClusters None;
                        Ecs.DescribeClusters ["prod-a"; "prod-b"; "stage-a"]] |}))
    by reflexivity.
  split; [exact H|].
  exact (proj2 (main_reports_described Stub.client Re.fragment _ _ _ _ _ _ _ H)).
Defined.
